(** * M1.cpp: OBJ viewer -- loader, draw contract, selection and transform input

    A shallow embedding of [src/src/M1.cpp].

    Conventions of the embedding:
    - [unsigned int] / [GLuint] values are [Z] in [0, 2^32) with the
      wrap-around written out ([wrap32]); [int] is [Z] reduced by [to_int];
      [size_t] is [Z] reduced modulo [2^64].
    - [float] is modelled twice.  In the viewer model ([viewer],
      [processInput], [run], [main_loop]) a [float] is an exact rational
      ([Q]) and [+=], [-=], [*], [fmod], [glm::max] are the exact
      operations, with [0.1f] as [1/10]; that model carries the statements
      about control flow, selection, aliasing and the shape of a frame,
      which do not depend on how a sum is rounded.  Module [Binary32]
      embeds [processInput] once more over IEEE 754 binary32 (24 bits,
      round to nearest even after every operation, signed zeros,
      infinities, NaN); what depends on the rounding is stated there.
    - [std::istringstream] is modelled by the remaining characters and the
      [eofbit]/[failbit] flags, with the formatted extractions the loader
      uses.
    - a local variable read before it was ever assigned holds an arbitrary
      value; those values are a parameter ([junk]) of the loader and every
      statement quantifies over it.
    - an out-of-bounds [operator[]] read ([vec_at] returning [None]) is
      [Fault OutOfBounds].
    - [objects] is a [std::vector<OBJ*>]: a list of pointers into a heap of
      objects.
    - GLFW is seen through what it hands to the program: the keys that
      [glfwGetKey] reports as held, the key callbacks that
      [glfwPollEvents] runs, the clock, and the window's close flag, which
      the program sets on Escape and GLFW sets when the window system asks
      to close the window. *)

From Stdlib Require Import ZArith QArith Lia Lqa Ascii String List Bool.
From Stdlib Require Import Qpower SpecFloat.
From stdpp Require Import base option list gmap.
Import ListNotations.

Local Open Scope Z_scope.

(** ** Machine integers *)

Definition UINT_MAX : Z := 4294967295.
Definition INT_MAX : Z := 2147483647.

(** Arithmetic on [unsigned int] is modulo [2^32]. *)
Definition wrap32 (z : Z) : Z := z mod 2 ^ 32.

(** [u - 1] on [unsigned int]: index 0 wraps to [UINT_MAX]. *)
Definition dec32 (u : Z) : Z := wrap32 (u - 1).

(** Conversion to [size_t] (64 bit). *)
Definition to_size_t (z : Z) : Z := z mod 2 ^ 64.

(** Conversion to [int] (two's complement, 32 bit). *)
Definition to_int (z : Z) : Z := (z + 2 ^ 31) mod 2 ^ 32 - 2 ^ 31.

(** [v[i]] on a [std::vector]; [None] is a read past the end. *)
Definition vec_at {A : Type} (v : list A) (i : Z) : option A :=
  if (0 <=? i) && (i <? Z.of_nat (length v)) then v !! Z.to_nat i else None.

(** ** glm::vec3 over exact rationals *)

Record vec3 : Type := Vec3 { vx : Q; vy : Q; vz : Q }.

(** [glm::vec3(s)] *)
Definition vec3_splat (s : Q) : vec3 := Vec3 s s s.

(** ** std::istringstream *)

Module IStream.

Record t : Type := Mk { rest : list ascii; eofbit : bool; failbit : bool }.

Definition of_string (s : string) : t :=
  Mk (list_ascii_of_string s) false false.

(** [good()] *)
Definition good (s : t) : bool := negb (eofbit s) && negb (failbit s).

(** [std::isspace] in the "C" locale: space, \t, \n, \v, \f, \r. *)
Definition isspace (c : ascii) : bool :=
  let n := Z.of_nat (nat_of_ascii c) in
  (n =? 32) || ((9 <=? n) && (n <=? 13)).

Definition isdigit (c : ascii) : bool :=
  let n := Z.of_nat (nat_of_ascii c) in (48 <=? n) && (n <=? 57).

Definition digit_val (c : ascii) : Z := Z.of_nat (nat_of_ascii c) - 48.

Fixpoint skipws (l : list ascii) : list ascii :=
  match l with
  | c :: l' => if isspace c then skipws l' else l
  | [] => []
  end.

(** Longest prefix satisfying [p], and what follows it. *)
Fixpoint span (p : ascii -> bool) (l : list ascii) : list ascii * list ascii :=
  match l with
  | c :: l' =>
      if p c then let '(a, b) := span p l' in (c :: a, b) else ([], l)
  | [] => ([], [])
  end.

Definition at_end (l : list ascii) : bool :=
  match l with [] => true | _ => false end.

(** The [sentry] of a formatted input function: a stream that is not
    [good()] gets [failbit]; otherwise leading whitespace is skipped, and
    reaching the end while skipping sets [eofbit | failbit]. *)
Definition sentry (s : t) : bool * t :=
  if good s then
    match skipws (rest s) with
    | [] => (false, Mk [] true true)
    | r => (true, Mk r false false)
    end
  else (false, Mk (rest s) (eofbit s) true).

(** [is >> str]: on a failed sentry [str] keeps its old value. *)
Definition get_string (s : t) (old : string) : string * t :=
  let '(ok, s1) := sentry s in
  if ok then
    let '(tok, r) := span (fun c => negb (isspace c)) (rest s1) in
    (string_of_list_ascii tok, Mk r (at_end r) false)
  else (old, s1).

Definition digits_val (ds : list ascii) : Z :=
  fold_left (fun acc d => 10 * acc + digit_val d) ds 0.

Definition split_sign (l : list ascii) : bool * list ascii :=
  match l with
  | "-"%char :: r => (true, r)
  | "+"%char :: r => (false, r)
  | _ => (false, l)
  end.

(** [is >> u] for [unsigned int u]: on a failed sentry [u] keeps its old
    value; with no digit [u] becomes 0 and [failbit] is set; a magnitude
    above [UINT_MAX] stores [UINT_MAX] and sets [failbit]; a leading
    minus negates modulo [2^32]. *)
Definition get_unsigned (s : t) (old : Z) : Z * t :=
  let '(ok, s1) := sentry s in
  if ok then
    let '(neg, r0) := split_sign (rest s1) in
    let '(ds, r) := span isdigit r0 in
    match ds with
    | [] => (0, Mk r (at_end r) true)
    | _ =>
        let n := digits_val ds in
        if UINT_MAX <? n then (UINT_MAX, Mk r (at_end r) true)
        else (wrap32 (if neg then - n else n), Mk r (at_end r) false)
    end
  else (old, s1).

(** Optional exponent part [e[+-]digits] of a floating literal: the
    exponent, whether the part is well formed, and what follows. *)
Definition get_exponent (l : list ascii) : Z * bool * list ascii :=
  match l with
  | c :: r0 =>
      if (Ascii.eqb c "e" || Ascii.eqb c "E")%bool then
        let '(neg, r1) := split_sign r0 in
        let '(ds, r) := span isdigit r1 in
        match ds with
        | [] => (0, false, r)
        | _ => ((if neg then - digits_val ds else digits_val ds), true, r)
        end
      else (0, true, l)
  | [] => (0, true, [])
  end.

(** [is >> f] for [float f]: the decimal literal
    [[+-]digits[.digits][e[+-]digits]] read as the rational it denotes;
    a malformed literal stores 0 and sets [failbit]; on a failed sentry
    [f] keeps its old value.  The literal is kept exactly: its rounding to
    binary32, and the [failbit] of a literal beyond the range of [float],
    are left out. *)
Definition get_float (s : t) (old : Q) : Q * t :=
  let '(ok, s1) := sentry s in
  if ok then
    let '(neg, r0) := split_sign (rest s1) in
    let '(ip, r1) := span isdigit r0 in
    let '(fp, r2) :=
      match r1 with
      | "."%char :: r => span isdigit r
      | _ => ([], r1)
      end in
    match ip ++ fp with
    | [] => (0%Q, Mk r2 (at_end r2) true)
    | ds =>
        let '(e, wf, r) := get_exponent r2 in
        if wf then
          let m := inject_Z (digits_val ds) in
          let v := (m * Qpower 10 (e - Z.of_nat (length fp)))%Q in
          (Qred (if neg then - v else v)%Q, Mk r (at_end r) false)
        else (0%Q, Mk r (at_end r) true)
    end
  else (old, s1).

End IStream.

(** ** The mesh object *)

(** [class OBJ] without its GPU handles. *)
Record OBJ : Type := MkOBJ {
  vertices : list vec3;
  normals : list vec3;
  indices : list Z;
  position : vec3;
  rotation : vec3;
  scale : vec3;
  name : string
}.

Definition set_mesh (o : OBJ) (vs ns : list vec3) (ix : list Z) : OBJ :=
  MkOBJ vs ns ix (position o) (rotation o) (scale o) (name o).
Definition set_position (o : OBJ) (p : vec3) : OBJ :=
  MkOBJ (vertices o) (normals o) (indices o) p (rotation o) (scale o) (name o).
Definition set_rotation (o : OBJ) (r : vec3) : OBJ :=
  MkOBJ (vertices o) (normals o) (indices o) (position o) r (scale o) (name o).
Definition set_scale (o : OBJ) (s : vec3) : OBJ :=
  MkOBJ (vertices o) (normals o) (indices o) (position o) (rotation o) s (name o).

(** Behaviours of the loader that are not a normal return. *)
Inductive fault : Type :=
| OutOfBounds   (* [temp_vertices[vertexIndex]] past the end *)
| Unbounded.    (* the 32-bit loop counter can never reach the size *)

Inductive outcome (A : Type) : Type :=
| Done (a : A)
| Fault (f : fault).
Arguments Done {A} a.
Arguments Fault {A} f.

(** ** OBJ::loadOBJ *)

Module Loader.

(** Contents of the locals that the loader declares without an
    initializer, as found when a line starts being processed. *)
Record indet : Type := Indet {
  g_vertex : vec3;        (* glm::vec3 vertex *)
  g_normal : vec3;        (* glm::vec3 normal *)
  g_vertexIndex : Z;      (* unsigned int vertexIndex *)
  g_normalIndex : Z       (* unsigned int normalIndex *)
}.

(** The four local vectors filled by the reading loop. *)
Record raw : Type := Raw {
  temp_vertices : list vec3;
  temp_normals : list vec3;
  vertexIndices : list Z;
  normalIndices : list Z
}.

Definition raw_empty : raw := Raw [] [] [] [].

Definition newline : ascii := "010"%char.

(** The lines [std::getline] returns until it fails. *)
Fixpoint getlines (cur : list ascii) (l : list ascii) : list string :=
  match l with
  | [] =>
      match cur with
      | [] => []
      | _ => [string_of_list_ascii (rev cur)]
      end
  | c :: r =>
      if Ascii.eqb c newline
      then string_of_list_ascii (rev cur) :: getlines [] r
      else getlines (c :: cur) r
  end.

(** [s.find(c, from)] *)
Fixpoint find_from (c : ascii) (l : list ascii) (from : nat) : option nat :=
  match l with
  | [] => None
  | d :: l' =>
      match from with
      | O => if Ascii.eqb d c then Some O else S <$> find_from c l' O
      | S k => S <$> find_from c l' k
      end
  end.

(** [std::replace(s.begin(), s.end(), a, b)] *)
Definition replace (a b : ascii) (l : list ascii) : list ascii :=
  map (fun c => if Ascii.eqb c a then b else c) l.

(** [iss >> v.x >> v.y >> v.z] *)
Definition get_vec3 (iss : IStream.t) (old : vec3) : vec3 * IStream.t :=
  let '(x, s1) := IStream.get_float iss (vx old) in
  let '(y, s2) := IStream.get_float s1 (vy old) in
  let '(z, s3) := IStream.get_float s2 (vz old) in
  (Vec3 x y z, s3).

(** Locals of the [f] branch that live across the three iterations. *)
Record face_locals : Type := FaceLocals {
  vertexData : string;
  vertexIndex : Z;
  normalIndex : Z
}.

(** One iteration of [for (int i = 0; i < 3; i++)]. *)
Definition face_corner (st : IStream.t * face_locals * raw)
  : IStream.t * face_locals * raw :=
  let '(iss, loc, R) := st in
  let '(vd0, iss') := IStream.get_string iss (vertexData loc) in
  let vd := replace "/" " " (list_ascii_of_string vd0) in
  let vdss := IStream.Mk vd false false in
  let '(vi, vdss1) := IStream.get_unsigned vdss (vertexIndex loc) in
  let '(ni, nis) :=
    match find_from " " vd 0 with
    | Some p =>
        (* vdss >> textureIndex *)
        let '(_, vdss2) := IStream.get_unsigned vdss1 0 in
        match find_from " " vd (p + 1) with
        | Some _ =>
            let '(ni, _) := IStream.get_unsigned vdss2 (normalIndex loc) in
            (ni, normalIndices R ++ [dec32 ni])
        | None => (normalIndex loc, normalIndices R)
        end
    | None => (normalIndex loc, normalIndices R)
    end in
  (iss',
   FaceLocals (string_of_list_ascii vd) vi ni,
   Raw (temp_vertices R) (temp_normals R)
       (vertexIndices R ++ [dec32 vi]) nis).

(** Body of the [while (std::getline(file, line))] loop. *)
Definition read_line (g : indet) (line : string) (R : raw) : raw :=
  let '(prefix, iss) := IStream.get_string (IStream.of_string line) "" in
  if String.eqb prefix "v" then
    let '(v, _) := get_vec3 iss (g_vertex g) in
    Raw (temp_vertices R ++ [v]) (temp_normals R)
        (vertexIndices R) (normalIndices R)
  else if String.eqb prefix "vn" then
    let '(n, _) := get_vec3 iss (g_normal g) in
    Raw (temp_vertices R) (temp_normals R ++ [n])
        (vertexIndices R) (normalIndices R)
  else if String.eqb prefix "f" then
    let loc := FaceLocals "" (wrap32 (g_vertexIndex g))
                             (wrap32 (g_normalIndex g)) in
    let '(_, _, R') := face_corner (face_corner (face_corner (iss, loc, R))) in
    R'
  else R.

(** The whole reading loop; [junk n] is what the uninitialized locals
    hold while line [n] is processed. *)
Fixpoint read_lines (junk : nat -> indet) (n : nat) (lines : list string)
    (R : raw) : raw :=
  match lines with
  | [] => R
  | l :: ls => read_lines junk (S n) ls (read_line (junk n) l R)
  end.

(** [glm::vec3(0.0f, 1.0f, 0.0f)] *)
Definition up : vec3 := Vec3 0 1 0.

(** The normal pushed for face-vertex occurrence [i]. *)
Definition normal_at (R : raw) (i : nat) : vec3 :=
  match normalIndices R !! i with
  | Some ni =>
      if ni <? Z.of_nat (length (temp_normals R)) then
        match vec_at (temp_normals R) ni with
        | Some n => n
        | None => up
        end
      else up
  | None => up
  end.

(** The [// Process indices] loop, from counter value [i] on. *)
Fixpoint process_indices (R : raw) (vis : list Z) (i : nat) (o : OBJ)
  : outcome OBJ :=
  match vis with
  | [] => Done o
  | vi :: vis' =>
      match vec_at (temp_vertices R) vi with
      | None => Fault OutOfBounds
      | Some v =>
          process_indices R vis' (S i)
            (set_mesh o (vertices o ++ [v])
                        (normals o ++ [normal_at R i])
                        (indices o ++ [Z.of_nat i]))
      end
  end.

(** A file system: the characters of the file at a path, or [None] when
    [std::ifstream] cannot open it. *)
Definition filesystem : Type := string -> option string.

(** [void OBJ::loadOBJ(const std::string& filePath)] *)
Definition loadOBJ (fs : filesystem) (junk : nat -> indet)
    (filePath : string) (o : OBJ) : outcome OBJ :=
  match fs filePath with
  | None => Done o     (* "Failed to open file"; return *)
  | Some content =>
      let R := read_lines junk 0 (getlines [] (list_ascii_of_string content))
                          raw_empty in
      if 2 ^ 32 <=? Z.of_nat (length (vertexIndices R)) then Fault Unbounded
      else process_indices R (vertexIndices R) 0 o
  end.

(** [OBJ(const std::string& objFilePath)]: the member initializers, then
    [name = objFilePath; loadOBJ(objFilePath);] ([setupMesh] only talks
    to the GPU). *)
Definition construct (fs : filesystem) (junk : nat -> indet)
    (objFilePath : string) : outcome OBJ :=
  loadOBJ fs junk objFilePath
    (MkOBJ [] [] [] (vec3_splat 0) (vec3_splat 0) (vec3_splat 1) objFilePath).

(** Number of lines whose first token is [f]. *)
Definition is_face_line (line : string) : bool :=
  String.eqb (fst (IStream.get_string (IStream.of_string line) "")) "f".

Definition faceCount (content : string) : nat :=
  length (List.filter is_face_line
            (getlines [] (list_ascii_of_string content))).

(** A text file made of the given lines, each ended by a newline. *)
Definition unlines (ls : list string) : string :=
  fold_right (fun l acc => (l ++ String newline acc)%string) EmptyString ls.

End Loader.

(** ** GLM: the matrix interface used by [draw] *)

(** What [OBJ::draw] needs from GLM.  [glm::translate(m, v)],
    [glm::rotate(m, a, axis)] and [glm::scale(m, v)] are documented to
    return the input matrix multiplied, on the right, by the translation,
    rotation or scale matrix built from their other arguments. *)
Class GLM : Type := {
  mat4 : Type;
  angle : Type;
  mat4_id : mat4;                            (* glm::mat4(1.0f) *)
  mat4_mul : mat4 -> mat4 -> mat4;           (* operator* *)
  radians : Q -> angle;                      (* glm::radians *)
  translation : vec3 -> mat4;
  rotation_about : angle -> vec3 -> mat4;
  scaling : vec3 -> mat4
}.

(** The algebra of matrix products. *)
Class GLMLaws (G : GLM) : Prop := {
  mat4_mul_id_l : forall m : mat4, mat4_mul mat4_id m = m;
  mat4_mul_assoc : forall a b c : mat4,
      mat4_mul (mat4_mul a b) c = mat4_mul a (mat4_mul b c)
}.

Section Draw.

Context {G : GLM}.

Definition glm_translate (m : mat4) (v : vec3) : mat4 :=
  mat4_mul m (translation v).
Definition glm_rotate (m : mat4) (a : angle) (axis : vec3) : mat4 :=
  mat4_mul m (rotation_about a axis).
Definition glm_scale (m : mat4) (v : vec3) : mat4 :=
  mat4_mul m (scaling v).

Definition axis_x : vec3 := Vec3 1 0 0.
Definition axis_y : vec3 := Vec3 0 1 0.
Definition axis_z : vec3 := Vec3 0 0 1.

(** The factors named by the specification. *)
Definition Translate (p : vec3) : mat4 := translation p.
Definition RotateX (deg : Q) : mat4 := rotation_about (radians deg) axis_x.
Definition RotateY (deg : Q) : mat4 := rotation_about (radians deg) axis_y.
Definition RotateZ (deg : Q) : mat4 := rotation_about (radians deg) axis_z.
Definition Scale (s : vec3) : mat4 := scaling s.

Inductive polygon_mode : Type := GL_LINE | GL_FILL.

(** The GL commands [draw] issues that matter to the rasterizer. *)
Inductive gl_call : Type :=
| glUniformMatrix4fv (uniform : string) (m : mat4)
| glUniform1i (uniform : string) (v : Z)
| glPolygonMode (m : polygon_mode)
| glDrawElements (count : nat).

(** The local [model] of [OBJ::draw] after its five assignments. *)
Definition model_matrix (o : OBJ) : mat4 :=
  let model := mat4_id in
  let model := glm_translate model (position o) in
  let model := glm_rotate model (radians (vx (rotation o))) axis_x in
  let model := glm_rotate model (radians (vy (rotation o))) axis_y in
  let model := glm_rotate model (radians (vz (rotation o))) axis_z in
  glm_scale model (scale o).

(** [void OBJ::draw(GLuint shaderProgram, bool selected, bool wireframeMode)] *)
Definition draw (o : OBJ) (selected wireframeMode : bool) : list gl_call :=
  [ glUniformMatrix4fv "model" (model_matrix o);
    glUniform1i "selected" (if selected then 1 else 0);
    (if selected && wireframeMode
     then glPolygonMode GL_LINE else glPolygonMode GL_FILL);
    glDrawElements (length (indices o)) ]
  ++ (if selected && wireframeMode then [glPolygonMode GL_FILL] else []).

(** The matrix a call sequence uploads as the [model] uniform first. *)
Fixpoint submitted_model (cs : list gl_call) : option mat4 :=
  match cs with
  | glUniformMatrix4fv u m :: cs' =>
      if String.eqb u "model" then Some m else submitted_model cs'
  | _ :: cs' => submitted_model cs'
  | [] => None
  end.

(** The element counts of the draws a call sequence issues. *)
Fixpoint draw_counts (cs : list gl_call) : list nat :=
  match cs with
  | glDrawElements n :: cs' => n :: draw_counts cs'
  | _ :: cs' => draw_counts cs'
  | [] => []
  end.

(** The rasterizer: the polygon mode in force at every [glDrawElements],
    and the mode left behind. *)
Fixpoint rasterize (mode : polygon_mode) (cs : list gl_call)
  : list polygon_mode * polygon_mode :=
  match cs with
  | [] => ([], mode)
  | glPolygonMode m :: cs' => rasterize m cs'
  | glDrawElements _ :: cs' =>
      let '(ms, final) := rasterize mode cs' in (mode :: ms, final)
  | _ :: cs' => rasterize mode cs'
  end.

End Draw.

(** ** Global state of the viewer *)

Inductive key : Type :=
| KEY_ESCAPE | KEY_TAB | KEY_H
| KEY_1 | KEY_2 | KEY_3 | KEY_4
| KEY_W | KEY_S | KEY_A | KEY_D | KEY_Q | KEY_E
| KEY_UP | KEY_DOWN | KEY_LEFT | KEY_RIGHT
| KEY_OTHER.

Inductive action : Type := GLFW_RELEASE | GLFW_PRESS | GLFW_REPEAT.

(** The globals of M1.cpp that change at run time, the heap the [OBJ*]
    point into, and the window's close flag. *)
Record viewer : Type := MkViewer {
  heap : gmap nat OBJ;
  objects : list nat;
  selectedObjectIndex : Z;
  transformMode : bool;
  transformMode2 : bool;
  wireframeMode : bool;
  shouldClose : bool
}.

Definition rotationSpeed : Q := 50.
Definition translationSpeed : Q := 2.
Definition scaleSpeed : Q := 1.

(** [new OBJ(...)]: a fresh address. *)
Definition alloc (h : gmap nat OBJ) (o : OBJ) : nat * gmap nat OBJ :=
  let p := fresh (dom h) in (p, <[p := o]> h).

(** [glm::max(a, b)] on scalars: [(a < b) ? b : a]. *)
Definition glm_max (a b : Q) : Q :=
  match (a ?= b)%Q with Lt => b | _ => a end.

Definition glm_max3 (a b : vec3) : vec3 :=
  Vec3 (glm_max (vx a) (vx b)) (glm_max (vy a) (vy b)) (glm_max (vz a) (vz b)).

(** [fmod(x, y)]: [x - n * y] with [n] the quotient [x / y] truncated
    towards zero, computed on the common denominator. *)
Definition fmodf (x y : Q) : Q :=
  Z.rem (Qnum x * QDen y) (Qnum y * QDen x) # (Qden x * Qden y).

(** [r.x = fmod(r.x, 360.0f); r.y = ...; r.z = ...;] *)
Definition rotation_wrap (r : vec3) : vec3 :=
  Vec3 (fmodf (vx r) 360) (fmodf (vy r) 360) (fmodf (vz r) 360).

(** The pointer [objects[selectedObjectIndex]], when the guard
    [objects.empty() || selectedObjectIndex >= objects.size()] of
    [processInput] lets it be read. *)
Definition selected (st : viewer) : option nat :=
  let size := Z.of_nat (length (objects st)) in
  if (size =? 0) || (size <=? to_size_t (selectedObjectIndex st)) then None
  else objects st !! Z.to_nat (to_size_t (selectedObjectIndex st)).

(** The interaction mode encoded by the two mode flags. *)
Inductive mode : Type := RotateMode | TranslateMode | ScaleMode.

Definition current_mode (st : viewer) : mode :=
  if transformMode2 st then ScaleMode
  else if transformMode st then RotateMode else TranslateMode.

(** [if (pressed) x += d;] *)
Definition add_if (pressed : bool) (d x : Q) : Q :=
  if pressed then (x + d)%Q else x.
(** [if (pressed) x -= d;] *)
Definition sub_if (pressed : bool) (d x : Q) : Q :=
  if pressed then (x - d)%Q else x.

(** [processInput] in the viewer model: the control flow of the source
    with exact arithmetic.  [Binary32.processInput] below is the same
    function with the arithmetic of [float]. *)
Section Input.

Variable held : key -> bool.   (* glfwGetKey(window, k) == GLFW_PRESS *)
Variable deltaTime : Q.

(** The six key tests of the [transformMode2] branch. *)
Definition scale_keys (s : vec3) : vec3 :=
  let scaleChange := (scaleSpeed * deltaTime)%Q in
  let y := add_if (held KEY_W) scaleChange (vy s) in
  let y := sub_if (held KEY_S) scaleChange y in
  let x := sub_if (held KEY_A) scaleChange (vx s) in
  let x := add_if (held KEY_D) scaleChange x in
  let z := add_if (held KEY_Q) scaleChange (vz s) in
  let z := sub_if (held KEY_E) scaleChange z in
  Vec3 x y z.

(** The [transformMode2] branch of [processInput]: the key tests, then
    [scale = glm::max(scale, glm::vec3(0.1f))]. *)
Definition scale_branch (s : vec3) : vec3 :=
  glm_max3 (scale_keys s) (vec3_splat (1 # 10)).

(** The six key tests of the [transformMode] branch. *)
Definition rotation_keys (r : vec3) : vec3 :=
  let rotChange := (rotationSpeed * deltaTime)%Q in
  let x := add_if (held KEY_W) rotChange (vx r) in
  let x := sub_if (held KEY_S) rotChange x in
  let y := add_if (held KEY_A) rotChange (vy r) in
  let y := sub_if (held KEY_D) rotChange y in
  let z := add_if (held KEY_Q) rotChange (vz r) in
  let z := sub_if (held KEY_E) rotChange z in
  Vec3 x y z.

(** The [transformMode] branch of [processInput]: the key tests, then
    the three [fmod] assignments. *)
Definition rotation_branch (r : vec3) : vec3 :=
  rotation_wrap (rotation_keys r).

(** The final [else] branch of [processInput]. *)
Definition translation_branch (p : vec3) : vec3 :=
  let moveSpeed := (translationSpeed * deltaTime)%Q in
  let y := add_if (held KEY_W || held KEY_UP) moveSpeed (vy p) in
  let y := sub_if (held KEY_S || held KEY_DOWN) moveSpeed y in
  let x := sub_if (held KEY_A || held KEY_LEFT) moveSpeed (vx p) in
  let x := add_if (held KEY_D || held KEY_RIGHT) moveSpeed x in
  let z := sub_if (held KEY_Q) moveSpeed (vz p) in
  let z := add_if (held KEY_E) moveSpeed z in
  Vec3 x y z.

(** What [processInput] does to [*selectedObj]. *)
Definition transform_selected (tm tm2 : bool) (o : OBJ) : OBJ :=
  if tm2 then set_scale o (scale_branch (scale o))
  else if tm then set_rotation o (rotation_branch (rotation o))
  else set_position o (translation_branch (position o)).

(** [void processInput(GLFWwindow* window, float deltaTime)] *)
Definition processInput (st : viewer) : viewer :=
  let close := if held KEY_ESCAPE then true else shouldClose st in
  let st1 := MkViewer (heap st) (objects st) (selectedObjectIndex st)
               (transformMode st) (transformMode2 st) (wireframeMode st)
               close in
  match selected st with
  | None => st1
  | Some selectedObj =>
      match heap st !! selectedObj with
      | Some o =>
          MkViewer
            (<[selectedObj :=
                 transform_selected (transformMode st) (transformMode2 st) o]>
               (heap st))
            (objects st) (selectedObjectIndex st)
            (transformMode st) (transformMode2 st) (wireframeMode st)
            close
      | None => st1
      end
  end.

End Input.

(** [void key_callback(GLFWwindow*, int key, int scancode, int action, int mods)] *)
Definition key_callback (k : key) (a : action) (st : viewer) : viewer :=
  match a with
  | GLFW_PRESS =>
      match k with
      | KEY_TAB =>
          match objects st with
          | [] => st
          | _ =>
              let size := Z.of_nat (length (objects st)) in
              MkViewer (heap st) (objects st)
                (to_int (to_size_t (to_int (selectedObjectIndex st + 1)) mod size))
                (transformMode st) (transformMode2 st) (wireframeMode st)
                (shouldClose st)
          end
      | KEY_1 =>
          MkViewer (heap st) (objects st) (selectedObjectIndex st)
            true false (wireframeMode st) (shouldClose st)
      | KEY_2 =>
          MkViewer (heap st) (objects st) (selectedObjectIndex st)
            false false (wireframeMode st) (shouldClose st)
      | KEY_3 =>
          MkViewer (heap st) (objects st) (selectedObjectIndex st)
            false true (wireframeMode st) (shouldClose st)
      | KEY_4 =>
          MkViewer (heap st) (objects st) (selectedObjectIndex st)
            (transformMode st) (transformMode2 st) (negb (wireframeMode st))
            (shouldClose st)
      | _ => st
      end
  | _ => st
  end.

(** The Tab selection advance. *)
Definition selectNext (st : viewer) : viewer := key_callback KEY_TAB GLFW_PRESS st.

(** What can happen to the state between two renders: a call of
    [processInput], a key callback run by [glfwPollEvents], or GLFW
    setting the close flag because the window system asked to close the
    window. *)
Inductive event : Type :=
| Frame (held : key -> bool) (deltaTime : Q)
| KeyEvent (k : key) (a : action)
| WindowClose.

Definition step (st : viewer) (e : event) : viewer :=
  match e with
  | Frame held dt => processInput held dt st
  | KeyEvent k a => key_callback k a st
  | WindowClose =>
      MkViewer (heap st) (objects st) (selectedObjectIndex st)
        (transformMode st) (transformMode2 st) (wireframeMode st) true
  end.

Definition run (st : viewer) (es : list event) : viewer := fold_left step es st.

(** ** The transform update in IEEE 754 binary32 *)

(** [processInput] once more, with [float] as the binary32 format:
    24 bits of precision, round to nearest (ties to even), signed zeros,
    infinities and NaN.  Sums, differences and products are the
    operations of the Standard Library's specification of IEEE 754
    ([SpecFloat]) at this format; every operation of the source is rounded
    on its own (no fused multiply-add, no wider intermediate format).  The
    objects carry the three transform fields only, the globals are the
    ones [processInput] reads or writes. *)
Module Binary32.

Definition prec : Z := 24.
Definition emax : Z := 128.

(** A [float]: a zero, an infinity, NaN, or the finite
    [(-1)^s * m * 2^e]. *)
Definition float : Type := spec_float.

(** The float of an integer literal ([of_Z 360] is [360.0f]); exact below
    [2^24]. *)
Definition of_Z (z : Z) : float := binary_normalize prec emax z 0 false.

Definition add : float -> float -> float := SFadd prec emax.
Definition sub : float -> float -> float := SFsub prec emax.
Definition mul : float -> float -> float := SFmul prec emax.
Definition div : float -> float -> float := SFdiv prec emax.

(** The literal [0.1f]: one tenth rounded to a float. *)
Definition f0_1 : float := div (of_Z 1) (of_Z 10).

(** The number a float stands for, [(-1)^s * m * 2^e] in lowest terms;
    [None] for an infinity or NaN. *)
Definition value (x : float) : option Q :=
  match x with
  | S754_zero _ => Some 0%Q
  | S754_finite s m e =>
      Some (Qred (inject_Z (if s then Z.neg m else Z.pos m) * 2 ^ e))
  | _ => None
  end.

(** [x < y]: the numbers are compared; NaN is below nothing and nothing is
    below NaN, minus infinity is below and plus infinity above every
    other number.  On floats in canonical form this is [SFltb] of the
    Standard Library (lemma [lt_SFltb]). *)
Definition lt (x y : float) : bool :=
  match x, y with
  | S754_nan, _ | _, S754_nan => false
  | _, S754_infinity true => false
  | S754_infinity true, _ => true
  | S754_infinity false, _ => false
  | _, S754_infinity false => true
  | _, _ =>
      match value x, value y with
      | Some a, Some b => match (a ?= b)%Q with Lt => true | _ => false end
      | _, _ => false
      end
  end.

(** [fmod(x, y)]: the remainder of [x / y] truncated towards zero, with
    the sign of [x], computed on the mantissas at the smaller of the two
    exponents and brought back to canonical form. *)
Definition fmod (x y : float) : float :=
  match x, y with
  | S754_nan, _ | _, S754_nan => S754_nan
  | S754_infinity _, _ => S754_nan
  | _, S754_zero _ => S754_nan
  | S754_zero _, _ => x
  | S754_finite _ _ _, S754_infinity _ => x
  | S754_finite sx mx ex, S754_finite _ my ey =>
      let e := Z.min ex ey in
      let r := Z.rem (Z.pos mx * 2 ^ (ex - e)) (Z.pos my * 2 ^ (ey - e)) in
      binary_normalize prec emax (cond_Zopp sx r) e sx
  end.

Record vec3 : Type := Vec3 { vx : float; vy : float; vz : float }.

(** [glm::vec3(s)] *)
Definition vec3_splat (s : float) : vec3 := Vec3 s s s.

(** The transform fields of [class OBJ]. *)
Record OBJ : Type := MkOBJ {
  position : vec3;
  rotation : vec3;
  scale : vec3
}.

Definition set_position (o : OBJ) (p : vec3) : OBJ :=
  MkOBJ p (rotation o) (scale o).
Definition set_rotation (o : OBJ) (r : vec3) : OBJ :=
  MkOBJ (position o) r (scale o).
Definition set_scale (o : OBJ) (s : vec3) : OBJ :=
  MkOBJ (position o) (rotation o) s.

Record viewer : Type := MkViewer {
  heap : gmap nat OBJ;
  objects : list nat;
  selectedObjectIndex : Z;
  transformMode : bool;
  transformMode2 : bool;
  shouldClose : bool
}.

Definition rotationSpeed : float := of_Z 50.
Definition translationSpeed : float := of_Z 2.
Definition scaleSpeed : float := of_Z 1.

(** [glm::max(a, b)] on scalars: [(a < b) ? b : a]. *)
Definition glm_max (a b : float) : float := if lt a b then b else a.

Definition glm_max3 (a b : vec3) : vec3 :=
  Vec3 (glm_max (vx a) (vx b)) (glm_max (vy a) (vy b)) (glm_max (vz a) (vz b)).

(** [r.x = fmod(r.x, 360.0f); r.y = ...; r.z = ...;] *)
Definition rotation_wrap (r : vec3) : vec3 :=
  Vec3 (fmod (vx r) (of_Z 360)) (fmod (vy r) (of_Z 360))
       (fmod (vz r) (of_Z 360)).

(** The pointer [objects[selectedObjectIndex]] behind the guard of
    [processInput]. *)
Definition selected (st : viewer) : option nat :=
  let size := Z.of_nat (length (objects st)) in
  if (size =? 0) || (size <=? to_size_t (selectedObjectIndex st)) then None
  else objects st !! Z.to_nat (to_size_t (selectedObjectIndex st)).

(** [if (pressed) x += d;] *)
Definition add_if (pressed : bool) (d x : float) : float :=
  if pressed then add x d else x.
(** [if (pressed) x -= d;] *)
Definition sub_if (pressed : bool) (d x : float) : float :=
  if pressed then sub x d else x.

Section Input.

Variable held : key -> bool.   (* glfwGetKey(window, k) == GLFW_PRESS *)
Variable deltaTime : float.

(** The six key tests of the [transformMode2] branch. *)
Definition scale_keys (s : vec3) : vec3 :=
  let scaleChange := mul scaleSpeed deltaTime in
  let y := add_if (held KEY_W) scaleChange (vy s) in
  let y := sub_if (held KEY_S) scaleChange y in
  let x := sub_if (held KEY_A) scaleChange (vx s) in
  let x := add_if (held KEY_D) scaleChange x in
  let z := add_if (held KEY_Q) scaleChange (vz s) in
  let z := sub_if (held KEY_E) scaleChange z in
  Vec3 x y z.

(** The [transformMode2] branch: the key tests, then
    [scale = glm::max(scale, glm::vec3(0.1f))]. *)
Definition scale_branch (s : vec3) : vec3 :=
  glm_max3 (scale_keys s) (vec3_splat f0_1).

(** The six key tests of the [transformMode] branch. *)
Definition rotation_keys (r : vec3) : vec3 :=
  let rotChange := mul rotationSpeed deltaTime in
  let x := add_if (held KEY_W) rotChange (vx r) in
  let x := sub_if (held KEY_S) rotChange x in
  let y := add_if (held KEY_A) rotChange (vy r) in
  let y := sub_if (held KEY_D) rotChange y in
  let z := add_if (held KEY_Q) rotChange (vz r) in
  let z := sub_if (held KEY_E) rotChange z in
  Vec3 x y z.

(** The [transformMode] branch: the key tests, then the three [fmod]
    assignments. *)
Definition rotation_branch (r : vec3) : vec3 :=
  rotation_wrap (rotation_keys r).

(** The final [else] branch. *)
Definition translation_branch (p : vec3) : vec3 :=
  let moveSpeed := mul translationSpeed deltaTime in
  let y := add_if (held KEY_W || held KEY_UP) moveSpeed (vy p) in
  let y := sub_if (held KEY_S || held KEY_DOWN) moveSpeed y in
  let x := sub_if (held KEY_A || held KEY_LEFT) moveSpeed (vx p) in
  let x := add_if (held KEY_D || held KEY_RIGHT) moveSpeed x in
  let z := sub_if (held KEY_Q) moveSpeed (vz p) in
  let z := add_if (held KEY_E) moveSpeed z in
  Vec3 x y z.

(** What [processInput] does to [*selectedObj]. *)
Definition transform_selected (tm tm2 : bool) (o : OBJ) : OBJ :=
  if tm2 then set_scale o (scale_branch (scale o))
  else if tm then set_rotation o (rotation_branch (rotation o))
  else set_position o (translation_branch (position o)).

(** [void processInput(GLFWwindow* window, float deltaTime)] *)
Definition processInput (st : viewer) : viewer :=
  let close := if held KEY_ESCAPE then true else shouldClose st in
  let st1 := MkViewer (heap st) (objects st) (selectedObjectIndex st)
               (transformMode st) (transformMode2 st) close in
  match selected st with
  | None => st1
  | Some selectedObj =>
      match heap st !! selectedObj with
      | Some o =>
          MkViewer
            (<[selectedObj :=
                 transform_selected (transformMode st) (transformMode2 st) o]>
               (heap st))
            (objects st) (selectedObjectIndex st)
            (transformMode st) (transformMode2 st) close
      | None => st1
      end
  end.

End Input.

(** A frame: the keys held and the [deltaTime] of a call of
    [processInput]. *)
Definition frame : Type := (key -> bool) * float.

(** The calls of [processInput] of successive frames. *)
Definition run (st : viewer) (fs : list frame) : viewer :=
  fold_left (fun s f => processInput (fst f) (snd f) s) fs st.

End Binary32.

(** ** main: loading and the per-frame draw loop *)

Definition asset : string := "../assets/Suzanne.obj".

(** The [try] block of [main] followed by the [objects.empty()] test.
    [loadOBJ] throws nothing of its own; running out of memory
    ([std::bad_alloc] from [new] or [push_back]) is the one way into the
    handler and is not modelled.  [None] is the [return -1] of "No objects
    loaded". *)
Definition main_load (fs : Loader.filesystem) (junk0 junk1 : nat -> Loader.indet)
  : outcome (option viewer) :=
  match Loader.construct fs junk0 asset with
  | Fault f => Fault f
  | Done o0 =>
      let '(p0, h0) := alloc ∅ o0 in
      let objs := [p0] in
      let h0 := alter (fun o => set_position o (Vec3 (-3 # 2) 0 0)) p0 h0 in
      match Loader.construct fs junk1 asset with
      | Fault f => Fault f
      | Done o1 =>
          let '(p1, h1) := alloc h0 o1 in
          let objs := objs ++ [p1] in
          let h1 := alter (fun o => set_position o (Vec3 (3 # 2) 0 0)) p1 h1 in
          match objs with
          | [] => Done None
          | _ => Done (Some (MkViewer h1 objs 0 false false false false))
          end
      end
  end.

Section Render.

Context {G : GLM}.

(** [objects[i]->draw(shaderProgram, i == selectedObjectIndex, wireframeMode)] *)
Definition draw_nth (st : viewer) (i : nat) (p : nat) : list gl_call :=
  match heap st !! p with
  | Some o =>
      draw o (Z.of_nat i =? to_size_t (selectedObjectIndex st))
           (wireframeMode st)
  | None => []
  end.

(** The [for (size_t i = 0; i < objects.size(); i++)] loop of a frame,
    from index [i] on. *)
Fixpoint draw_from (st : viewer) (i : nat) (ps : list nat) : list gl_call :=
  match ps with
  | [] => []
  | p :: ps' => draw_nth st i p ++ draw_from st (S i) ps'
  end.

Definition render (st : viewer) : list gl_call := draw_from st 0 (objects st).

(** The polygon mode object [i] is specified to be drawn with. *)
Definition expected_mode (st : viewer) (i : nat) : polygon_mode :=
  if (Z.of_nat i =? to_size_t (selectedObjectIndex st)) && wireframeMode st
  then GL_LINE else GL_FILL.

End Render.

(** ** A symbolic GLM: matrices as words of factors *)

Inductive factor : Type :=
| FTranslate (v : vec3)
| FRotate (deg : Q) (axis : vec3)
| FScale (v : vec3).

#[export] Instance word_GLM : GLM := {|
  mat4 := list factor;
  angle := Q;
  mat4_id := [];
  mat4_mul := fun a b => a ++ b;
  radians := fun d => d;
  translation := fun v => [FTranslate v];
  rotation_about := fun a ax => [FRotate a ax];
  scaling := fun v => [FScale v]
|}.

(** ** Vocabulary of the statements *)

(** Every object on the heap satisfies [P]. *)
Definition heap_all (P : OBJ -> Prop) (st : viewer) : Prop :=
  forall p o, heap st !! p = Some o -> P o.

(** Every pointer of the registry points to a live object. *)
Definition allocated (st : viewer) : Prop :=
  Forall (fun p => is_Some (heap st !! p)) (objects st).

Definition in_wrap_range (c : Q) : Prop := (-360 < c /\ c < 360)%Q.

Definition rot_in_range (r : vec3) : Prop :=
  in_wrap_range (vx r) /\ in_wrap_range (vy r) /\ in_wrap_range (vz r).

Definition rotation_ok : viewer -> Prop :=
  heap_all (fun o => rot_in_range (rotation o)).


Definition floored (s : vec3) : Prop :=
  (1 # 10 <= vx s /\ 1 # 10 <= vy s /\ 1 # 10 <= vz s)%Q.

Definition scale_ok : viewer -> Prop := heap_all (fun o => floored (scale o)).

(** One Scale-mode update of [scale.x] in binary32 with D held and A
    released: [scale.x += scaleSpeed * deltaTime], then the floor. *)
Definition scale_step (x deltaTime : Binary32.float) : Binary32.float :=
  Binary32.glm_max
    (Binary32.add x (Binary32.mul Binary32.scaleSpeed deltaTime))
    Binary32.f0_1.

(** D is held and A is not. *)
Definition holds_plus_x (f : Binary32.frame) : Prop :=
  fst f KEY_D = true /\ fst f KEY_A = false.

(** A float in canonical form: the one representation the format admits
    for its number. *)
Definition valid (x : Binary32.float) : Prop :=
  valid_binary Binary32.prec Binary32.emax x = true.

(** The number [0.1f]. *)
Definition floor_value : Q := 13421773 # 134217728.

(** [c < 0.1f] is false. *)
Definition not_below_floor (c : Binary32.float) : Prop :=
  Binary32.lt c Binary32.f0_1 = false.

(** [c] is not below the floor: it is not minus infinity, and when it is
    a number, that number is at least [0.1f]. *)
Definition at_least_floor (c : Binary32.float) : Prop :=
  c <> S754_infinity true /\
  forall q, Binary32.value c = Some q -> (floor_value <= q)%Q.

Definition floored32 (s : Binary32.vec3) : Prop :=
  at_least_floor (Binary32.vx s) /\ at_least_floor (Binary32.vy s) /\
  at_least_floor (Binary32.vz s).

Definition scale_ok32 (st : Binary32.viewer) : Prop :=
  forall p o, Binary32.heap st !! p = Some o -> floored32 (Binary32.scale o).

(** The viewer model and the binary32 model in states that differ in the
    numbers only. *)
Definition same_control (st : viewer) (st32 : Binary32.viewer) : Prop :=
  objects st = Binary32.objects st32 /\
  selectedObjectIndex st = Binary32.selectedObjectIndex st32 /\
  transformMode st = Binary32.transformMode st32 /\
  transformMode2 st = Binary32.transformMode2 st32 /\
  shouldClose st = Binary32.shouldClose st32 /\
  dom (heap st) = dom (Binary32.heap st32).

(** The sum of [deltaTime] values, as a number; [None] when one of them
    is an infinity or NaN. *)
Fixpoint total_time (dts : list Binary32.float) : option Q :=
  match dts with
  | [] => Some 0%Q
  | dt :: rest =>
      match Binary32.value dt, total_time rest with
      | Some d, Some t => Some (Qred (d + t))
      | _, _ => None
      end
  end.

(** The update of [x] by [deltaTime] neither rounds nor clamps: as
    numbers, the new value is the old one plus [scaleSpeed * deltaTime]. *)
Definition exact_step (x deltaTime : Binary32.float) : Prop :=
  match Binary32.value x, Binary32.value deltaTime,
        Binary32.value (scale_step x deltaTime) with
  | Some a, Some d, Some c => (c == a + scaleSpeed * d)%Q
  | _, _, _ => False
  end.

(** Every update of a run of frames is exact. *)
Fixpoint exact_steps (x : Binary32.float) (dts : list Binary32.float)
  : Prop :=
  match dts with
  | [] => True
  | dt :: rest => exact_step x dt /\ exact_steps (scale_step x dt) rest
  end.

(** No update of a run of frames is clamped: the sum is never below
    [0.1f]. *)
Fixpoint never_clamped (x : Binary32.float) (dts : list Binary32.float)
  : Prop :=
  match dts with
  | [] => True
  | dt :: rest =>
      not_below_floor
        (Binary32.add x (Binary32.mul Binary32.scaleSpeed dt)) /\
      never_clamped (scale_step x dt) rest
  end.

Definition same_mesh (o o' : OBJ) : Prop :=
  vertices o' = vertices o /\ normals o' = normals o /\
  indices o' = indices o /\ name o' = name o.

(** The transform fields a mode leaves alone. *)
Definition frame_of (m : mode) (o o' : OBJ) : Prop :=
  match m with
  | TranslateMode => rotation o' = rotation o /\ scale o' = scale o
  | RotateMode => position o' = position o /\ scale o' = scale o
  | ScaleMode => position o' = position o /\ rotation o' = rotation o
  end.

(** ** Sample data *)

Definition no_junk : nat -> Loader.indet :=
  fun _ => Loader.Indet (vec3_splat 0) (vec3_splat 0) 0 0.

Definition fs_single (path content : string) : Loader.filesystem :=
  fun p => if String.eqb p path then Some content else None.

Definition fs_empty : Loader.filesystem := fun _ => None.

Definition tri_plain : string :=
  Loader.unlines ["v 0 0 0"; "v 1 0 0"; "v 0 1 0"; "f 1 2 3"]%string.

Definition tri_normals : string :=
  Loader.unlines ["v 0 0 0"; "v 1 0 0"; "v 0 1 0";
                  "vn 1 0 0"; "vn 0 0 1"; "vn 0.5 0.5 0";
                  "f 1//1 2//2 3//3"]%string.

Definition tri_full : string :=
  Loader.unlines ["v 0 0 0"; "v 1 0 0"; "v 0 1 0";
                  "vn 1 0 0"; "vn 0 0 1"; "vn 0.5 0.5 0";
                  "f 1/1/1 2/2/2 3/3/3"]%string.

Definition tri_plain_obj (path : string) : OBJ :=
  MkOBJ [Vec3 0 0 0; Vec3 1 0 0; Vec3 0 1 0]
        [Vec3 0 1 0; Vec3 0 1 0; Vec3 0 1 0] [0; 1; 2]
        (vec3_splat 0) (vec3_splat 0) (vec3_splat 1) path.

Definition src_normals : list vec3 :=
  [Vec3 1 0 0; Vec3 0 0 1; Vec3 (1 # 2) (1 # 2) 0].

(** Component-wise equality of vectors as numbers. *)
Definition vec3_eq (a b : vec3) : Prop :=
  (vx a == vx b /\ vy a == vy b /\ vz a == vz b)%Q.

(** A file that exercises the loader's corner cases: comment, blank and
    [vt] lines, an indented [v], tokens with one and two slashes, a quad,
    and faces with fewer than three tokens. *)
Definition mixed_file : string :=
  Loader.unlines ["# c"; "v 1.5 -2e1 .25"; "v 1 0 0"; ""; "  v 0 1 0";
                  "vt 0 0"; "vn 0 0 1";
                  "f 1/7/1 2/8 3"; "f 3 2 1 3"; "f 1 2"; "f 1/1/1"]%string.

Definition demo_obj (p : vec3) : OBJ := set_position (tri_plain_obj asset) p.

(** The state [main] starts its loop in when the asset is [tri_plain]. *)
Definition demo_state : viewer :=
  MkViewer (<[1%nat := demo_obj (Vec3 (3 # 2) 0 0)]>
              (<[0%nat := demo_obj (Vec3 (-3 # 2) 0 0)]> ∅))
           [0%nat; 1%nat] 0 false false false false.

Definition demo_three : viewer :=
  MkViewer ∅ [0%nat; 1%nat; 2%nat] 0 false false false false.

Definition hold_D (k : key) : bool :=
  match k with KEY_D => true | _ => false end.

Definition hold_W_E (k : key) : bool :=
  match k with KEY_W | KEY_E => true | _ => false end.

Definition hold_A_S_E (k : key) : bool :=
  match k with KEY_A | KEY_S | KEY_E => true | _ => false end.

(** An object as its constructor leaves it, moved to [x] on the X axis. *)
Definition loaded_obj32 (x : Binary32.float) : Binary32.OBJ :=
  Binary32.MkOBJ
    (Binary32.Vec3 x (Binary32.of_Z 0) (Binary32.of_Z 0))
    (Binary32.vec3_splat (Binary32.of_Z 0))
    (Binary32.vec3_splat (Binary32.of_Z 1)).

(** The transforms and globals with which [main] enters its loop (objects
    at x = -1.5 and x = 1.5, the first one selected), after a press of 3:
    Scale mode. *)
Definition scale_state32 : Binary32.viewer :=
  Binary32.MkViewer
    (<[1%nat := loaded_obj32 (Binary32.div (Binary32.of_Z 3) (Binary32.of_Z 2))]>
       (<[0%nat := loaded_obj32
                     (Binary32.div (Binary32.of_Z (-3)) (Binary32.of_Z 2))]> ∅))
    [0%nat; 1%nat] 0 false true false.

(** The same state after a press of 1: Rotate mode. *)
Definition rotate_state32 : Binary32.viewer :=
  Binary32.MkViewer (Binary32.heap scale_state32) [0%nat; 1%nat] 0
    true false false.

(** Frame times: 1/60 s and 1/30 s rounded to floats, and 1/64 s and
    1/32 s, which are floats. *)
Definition dt_60 : Binary32.float := Binary32.div (Binary32.of_Z 1) (Binary32.of_Z 60).
Definition dt_30 : Binary32.float := Binary32.div (Binary32.of_Z 1) (Binary32.of_Z 30).
Definition dt_64 : Binary32.float := Binary32.div (Binary32.of_Z 1) (Binary32.of_Z 64).
Definition dt_32 : Binary32.float := Binary32.div (Binary32.of_Z 1) (Binary32.of_Z 32).

(** D held for one second at 60 frames per second. *)
Definition second_at_60fps : list Binary32.frame := repeat (hold_D, dt_60) 60.

(** D held for a frame of 1/60 s and a frame of 1/30 s. *)
Definition two_frames : list Binary32.frame := [(hold_D, dt_60); (hold_D, dt_30)].

(** D held for a frame of 1/64 s and a frame of 1/32 s. *)
Definition dyadic_frames : list Binary32.frame := [(hold_D, dt_64); (hold_D, dt_32)].

Definition demo_events : list event :=
  [KeyEvent KEY_1 GLFW_PRESS; Frame hold_W_E 9; KeyEvent KEY_TAB GLFW_PRESS;
   Frame hold_A_S_E 20; KeyEvent KEY_3 GLFW_PRESS; Frame hold_A_S_E 5].

(** ** Vocabulary of the further statements *)

(** The first whitespace-delimited token of a line ([iss >> prefix]). *)
Definition first_token (line : string) : string :=
  fst (IStream.get_string (IStream.of_string line) "").

(** A line the reading loop skips: its first token is none of [v], [vn],
    [f]. *)
Definition skipped_line (line : string) : bool :=
  negb (String.eqb (first_token line) "v") &&
  negb (String.eqb (first_token line) "vn") &&
  negb (String.eqb (first_token line) "f").

(** The lines [std::getline] splits a file into. *)
Definition file_lines (content : string) : list string :=
  Loader.getlines [] (list_ascii_of_string content).

(** The local vectors after the reading loop of [loadOBJ]. *)
Definition read_file (junk : nat -> Loader.indet) (content : string)
  : Loader.raw :=
  Loader.read_lines junk 0 (Loader.getlines [] (list_ascii_of_string content))
    Loader.raw_empty.

(** [i] is an index of [v]. *)
Definition in_bounds {A : Type} (v : list A) (i : Z) : Prop :=
  0 <= i < Z.of_nat (length v).

(** [junk] with the entry of line [k] removed. *)
Definition junk_skip (junk : nat -> Loader.indet) (k : nat)
  : nat -> Loader.indet :=
  fun n => if (n <? k)%nat then junk n else junk (S n).

(** The text of a line holds no line feed. *)
Definition no_newline (l : string) : Prop :=
  forallb (fun c => negb (Ascii.eqb c Loader.newline)) (list_ascii_of_string l)
  = true.

(** Number of lines whose first token is [v], and whose first token is
    [vn]. *)
Definition vertexCount (lines : list string) : nat :=
  length (List.filter (fun l => String.eqb (first_token l) "v") lines).

Definition normalCount (lines : list string) : nat :=
  length (List.filter (fun l => String.eqb (first_token l) "vn") lines).

(** The interaction mode an event leaves behind. *)
Definition mode_after (m : mode) (e : event) : mode :=
  match e with
  | KeyEvent KEY_1 GLFW_PRESS => RotateMode
  | KeyEvent KEY_2 GLFW_PRESS => TranslateMode
  | KeyEvent KEY_3 GLFW_PRESS => ScaleMode
  | _ => m
  end.

Definition tab_press (e : event) : bool :=
  match e with KeyEvent KEY_TAB GLFW_PRESS => true | _ => false end.

Definition wireframe_press (e : event) : bool :=
  match e with KeyEvent KEY_4 GLFW_PRESS => true | _ => false end.

(** How many events of a sequence satisfy [p]. *)
Definition count_events (p : event -> bool) (es : list event) : nat :=
  length (List.filter p es).

(** An event that sets the close flag: a frame in which Escape is held,
    or a close request of the window system. *)
Definition close_request (e : event) : bool :=
  match e with
  | Frame held _ => held KEY_ESCAPE
  | KeyEvent _ _ => false
  | WindowClose => true
  end.

(** The selection index is a valid index of a registry that fits an
    [int]. *)
Definition selection_valid (st : viewer) : Prop :=
  0 <= selectedObjectIndex st < Z.of_nat (length (objects st)) /\
  Z.of_nat (length (objects st)) <= INT_MAX.

(** The heap holds the registry's objects and nothing else. *)
Definition heap_is_registry (st : viewer) : Prop :=
  forall q, q ∉ objects st -> heap st !! q = None.

(** [held] with each arrow key merged into the letter key it doubles. *)
Definition fold_arrows (held : key -> bool) (k : key) : bool :=
  match k with
  | KEY_W => held KEY_W || held KEY_UP
  | KEY_S => held KEY_S || held KEY_DOWN
  | KEY_A => held KEY_A || held KEY_LEFT
  | KEY_D => held KEY_D || held KEY_RIGHT
  | KEY_UP | KEY_DOWN | KEY_LEFT | KEY_RIGHT => false
  | _ => held k
  end.

(** [held] with the arrow keys released. *)
Definition drop_arrows (held : key -> bool) (k : key) : bool :=
  match k with
  | KEY_UP | KEY_DOWN | KEY_LEFT | KEY_RIGHT => false
  | _ => held k
  end.

(** No key that moves, turns or resizes the object is held. *)
Definition idle_keys (held : key -> bool) : Prop :=
  Forall (fun k => held k = false)
    [KEY_W; KEY_S; KEY_A; KEY_D; KEY_Q; KEY_E;
     KEY_UP; KEY_DOWN; KEY_LEFT; KEY_RIGHT].

Definition same_transform (o o' : OBJ) : Prop :=
  vec3_eq (position o') (position o) /\
  vec3_eq (rotation o') (rotation o) /\
  vec3_eq (scale o') (scale o).

(** ** The loop of [main] and its teardown *)

(** [currentFrame - lastFrame] on [float]: the difference rounded to
    binary32.  The viewer model leaves this operation open; what is proved
    of [main_loop] holds for every such function. *)
Class FloatSub : Type := float_sub : Q -> Q -> Q.

(** The difference without rounding, for the examples. *)
#[export] Instance exact_sub : FloatSub := Qminus.

Section Frames.
Context {G : GLM} {F : FloatSub}.

(** The values a call sequence uploads as the [selected] uniform. *)
Fixpoint selected_flags (cs : list gl_call) : list Z :=
  match cs with
  | glUniform1i u v :: cs' =>
      if String.eqb u "selected" then v :: selected_flags cs'
      else selected_flags cs'
  | _ :: cs' => selected_flags cs'
  | [] => []
  end.

(** What one iteration of the loop of [main] reads from GLFW: the clock
    ([glfwGetTime], converted to [float]), the keys held when
    [processInput] polls them, the key callbacks [glfwPollEvents] runs, and
    whether that [glfwPollEvents] finds a request of the window system to
    close the window. *)
Record frame_input : Type := FrameInput {
  fi_time : Q;
  fi_held : key -> bool;
  fi_events : list (key * action);
  fi_close : bool
}.

(** One [glfwPollEvents]: the key callbacks, and the close flag set on a
    close request.  The callbacks neither read nor write the flag, so the
    place of the request among them is immaterial. *)
Definition poll_events (evs : list (key * action)) (close : bool)
    (st : viewer) : viewer :=
  let st' := fold_left (fun s ka => key_callback (fst ka) (snd ka) s) evs st in
  if close then step st' WindowClose else st'.

(** [while (!glfwWindowShouldClose(window)) { ... }] over the inputs of
    its successive iterations: the GL calls of every frame it renders and
    the state it is left in.  [main] enters it with [lastFrame = 0]. *)
Fixpoint main_loop (inputs : list frame_input) (lastFrame : Q) (st : viewer)
  : list (list gl_call) * viewer :=
  match inputs with
  | [] => ([], st)
  | f :: rest =>
      if shouldClose st then ([], st)
      else
        let currentFrame := fi_time f in
        let deltaTime := float_sub currentFrame lastFrame in
        let st1 := processInput (fi_held f) deltaTime st in
        let calls := render st1 in
        let st2 := poll_events (fi_events f) (fi_close f) st1 in
        let '(frames, final) := main_loop rest currentFrame st2 in
        (calls :: frames, final)
  end.

End Frames.

(** The events of the iterations of the loop, in order. *)
Fixpoint loop_events {F : FloatSub} (inputs : list frame_input)
    (lastFrame : Q) : list event :=
  match inputs with
  | [] => []
  | f :: rest =>
      Frame (fi_held f) (float_sub (fi_time f) lastFrame)
      :: map (fun ka => KeyEvent (fst ka) (snd ka)) (fi_events f)
      ++ (if fi_close f then [WindowClose] else [])
      ++ loop_events rest (fi_time f)
  end.

(** The iterations up to and including the first one that sees Escape
    held or receives a close request. *)
Fixpoint until_close (inputs : list frame_input) : list frame_input :=
  match inputs with
  | [] => []
  | f :: rest =>
      if fi_held f KEY_ESCAPE || fi_close f then [f]
      else f :: until_close rest
  end.

(** [delete obj] for every pointer of the registry, in order; [None] when
    a pointer is deleted that is not (or no longer) live. *)
Fixpoint delete_all (ps : list nat) (h : gmap nat OBJ)
  : option (gmap nat OBJ) :=
  match ps with
  | [] => Some h
  | p :: ps' =>
      match h !! p with
      | Some _ => delete_all ps' (delete p h)
      | None => None
      end
  end.

(** The teardown of [main]: the [delete] loop, then [objects.clear()]. *)
Definition teardown (st : viewer) : option viewer :=
  h ← delete_all (objects st) (heap st);
  Some (MkViewer h [] (selectedObjectIndex st) (transformMode st)
          (transformMode2 st) (wireframeMode st) (shouldClose st)).

(** ** Further sample data *)

Definition commented_pre : list string := ["v 0 0 0"; "v 1 0 0"]%string.
Definition commented_post : list string := ["v 0 1 0"; "f 1 2 3"]%string.

Definition vertices_only : string :=
  Loader.unlines ["v 0 0 0"; "# no faces"; "vn 0 0 1"]%string.

Definition hold_none (k : key) : bool := false.

Definition hold_W (k : key) : bool :=
  match k with KEY_W => true | _ => false end.

Definition hold_ESC (k : key) : bool :=
  match k with KEY_ESCAPE => true | _ => false end.

Definition tab_events : list event :=
  [KeyEvent KEY_TAB GLFW_PRESS; Frame hold_W_E 1; KeyEvent KEY_TAB GLFW_RELEASE;
   KeyEvent KEY_TAB GLFW_PRESS; KeyEvent KEY_TAB GLFW_PRESS].

(** Three iterations; Escape is held in the second one. *)
Definition demo_inputs : list frame_input :=
  [FrameInput (1 # 60) hold_D [(KEY_3, GLFW_PRESS)] false;
   FrameInput (2 # 60) hold_ESC [(KEY_TAB, GLFW_PRESS)] false;
   FrameInput (3 # 60) hold_D [] false].

(** Three iterations; the window is closed during the second one. *)
Definition closed_inputs : list frame_input :=
  [FrameInput (1 # 60) hold_D [(KEY_3, GLFW_PRESS)] false;
   FrameInput (2 # 60) hold_D [(KEY_TAB, GLFW_PRESS)] true;
   FrameInput (3 # 60) hold_D [] false].

(** A registry that lists one object twice. *)
Definition aliased_state : viewer :=
  MkViewer (<[0%nat := demo_obj (Vec3 0 0 0)]> ∅) [0%nat; 0%nat]
           0 false false false false.

(** * Properties *)

(** ** The loader *)

Module LoaderFacts.
Import Loader.

Lemma face_corner_shape st :
  let '(_, _, R) := st in
  let '(_, _, R') := face_corner st in
  temp_vertices R' = temp_vertices R /\
  temp_normals R' = temp_normals R /\
  length (vertexIndices R') = S (length (vertexIndices R)).
Proof.
  destruct st as [[iss loc] R]. unfold face_corner.
  destruct (IStream.get_string iss (vertexData loc)) as [vd0 iss'].
  destruct (IStream.get_unsigned _ (vertexIndex loc)) as [vi vdss1].
  destruct (find_from " " _ 0) as [p|].
  - destruct (IStream.get_unsigned vdss1 0) as [ti vdss2].
    destruct (find_from " " _ (p + 1)) as [q|].
    + destruct (IStream.get_unsigned vdss2 (normalIndex loc)) as [ni s].
      cbn. rewrite length_app. cbn. repeat split; lia.
    + cbn. rewrite length_app. cbn. repeat split; lia.
  - cbn. rewrite length_app. cbn. repeat split; lia.
Qed.

Lemma read_line_vertexIndices g line R :
  length (vertexIndices (read_line g line R)) =
  (length (vertexIndices R) + if is_face_line line then 3 else 0)%nat.
Proof.
  unfold read_line, is_face_line.
  destruct (IStream.get_string (IStream.of_string line) "") as [prefix iss].
  cbn [fst].
  destruct (String.eqb prefix "v") eqn:Ev.
  { apply String.eqb_eq in Ev. subst prefix.
    destruct (get_vec3 iss (g_vertex g)). cbn. lia. }
  destruct (String.eqb prefix "vn") eqn:Evn.
  { apply String.eqb_eq in Evn. subst prefix.
    destruct (get_vec3 iss (g_normal g)). cbn. lia. }
  destruct (String.eqb prefix "f") eqn:Ef; [|lia].
  set (loc := FaceLocals _ _ _).
  pose proof (face_corner_shape (iss, loc, R)) as H1. cbv beta iota in H1.
  destruct (face_corner (iss, loc, R)) as [[i1 l1] R1].
  pose proof (face_corner_shape (i1, l1, R1)) as H2. cbv beta iota in H2.
  destruct (face_corner (i1, l1, R1)) as [[i2 l2] R2].
  pose proof (face_corner_shape (i2, l2, R2)) as H3. cbv beta iota in H3.
  destruct (face_corner (i2, l2, R2)) as [[i3 l3] R3].
  lia.
Qed.

Lemma read_lines_vertexIndices junk lines : forall n R,
  length (vertexIndices (read_lines junk n lines R)) =
  (length (vertexIndices R) + 3 * length (List.filter is_face_line lines))%nat.
Proof.
  induction lines as [|l ls IH]; intros n R; cbn [read_lines List.filter].
  - cbn. lia.
  - rewrite IH, read_line_vertexIndices.
    destruct (is_face_line l); cbn [length]; lia.
Qed.

Lemma process_indices_lengths R vis : forall i o o',
  process_indices R vis i o = Done o' ->
  length (vertices o') = (length (vertices o) + length vis)%nat /\
  length (normals o') = (length (normals o) + length vis)%nat /\
  length (indices o') = (length (indices o) + length vis)%nat.
Proof.
  induction vis as [|vi vis IH]; intros i o o' H; cbn in H.
  - injection H as <-. cbn. lia.
  - destruct (vec_at (temp_vertices R) vi) as [v|]; [|discriminate].
    apply IH in H. cbn in H. rewrite !length_app in H. cbn in H.
    cbn [length]. lia.
Qed.

(** The flattening loop returns as soon as every recorded vertex index is
    within [temp_vertices]. *)
Lemma process_indices_returns R vis : forall i o,
  Forall (fun vi => 0 <= vi < Z.of_nat (length (temp_vertices R))) vis ->
  exists o', process_indices R vis i o = Done o'.
Proof.
  induction vis as [|vi vis IH]; intros i o H; cbn.
  - eauto.
  - inversion H as [|? ? Hvi H']; subst.
    unfold vec_at.
  replace ((0 <=? vi) && (vi <? Z.of_nat (length (temp_vertices R))))
    with true by (symmetry; apply andb_true_iff; split; lia).
  destruct (lookup_lt_is_Some_2 (temp_vertices R) (Z.to_nat vi)) as [v ->];
      [lia|].
    apply IH, H'.
Qed.

End LoaderFacts.

(** The loader on [mixed_file]: only the first three tokens of a face are
    used; a face with fewer tokens reuses its last token; normal indices
    are matched to vertex occurrences by position in the file. *)
Example mixed_file_loads :
  Loader.construct (fs_single "m.obj" mixed_file) no_junk "m.obj" =
  Done (MkOBJ
          [Vec3 (3 # 2) (-20) (1 # 4); Vec3 1 0 0; Vec3 0 1 0;
           Vec3 0 1 0; Vec3 1 0 0; Vec3 (3 # 2) (-20) (1 # 4);
           Vec3 (3 # 2) (-20) (1 # 4); Vec3 1 0 0; Vec3 1 0 0;
           Vec3 (3 # 2) (-20) (1 # 4); Vec3 (3 # 2) (-20) (1 # 4);
           Vec3 (3 # 2) (-20) (1 # 4)]
          (replicate 4 (Vec3 0 0 1) ++ replicate 8 (Vec3 0 1 0))
          [0; 1; 2; 3; 4; 5; 6; 7; 8; 9; 10; 11]
          (vec3_splat 0) (vec3_splat 0) (vec3_splat 1) "m.obj").
Proof. vm_compute. reflexivity. Qed.

Example mixed_file_faces : Loader.faceCount mixed_file = 4%nat.
Proof. vm_compute. reflexivity. Qed.

(** A face that refers to a vertex the file does not define is a read
    past the end of [temp_vertices]. *)
Example dangling_face_faults :
  Loader.construct (fs_single "d.obj" (Loader.unlines ["v 0 0 0"; "f 1 2 3"]%string))
                   no_junk "d.obj" = Fault OutOfBounds.
Proof. vm_compute. reflexivity. Qed.

(** C3: whenever the loader returns, the three flattened arrays have the
    same length, and that length is three times the number of [f] lines of
    the file (hence a multiple of 3). *)
Theorem flattened_lengths fs junk path content o :
  fs path = Some content ->
  Loader.construct fs junk path = Done o ->
  length (vertices o) = length (normals o) /\
  length (normals o) = length (indices o) /\
  length (vertices o) = (3 * Loader.faceCount content)%nat /\
  (length (vertices o) mod 3 = 0)%nat.
Proof.
  unfold Loader.construct, Loader.loadOBJ, Loader.faceCount.
  intros -> H.
  destruct (_ <=? _) in H; [discriminate|].
  apply LoaderFacts.process_indices_lengths in H. cbn in H.
  rewrite LoaderFacts.read_lines_vertexIndices in H. cbn in H.
  destruct H as (Hv & Hn & Hi).
  set (k := length (List.filter _ _)) in *.
  assert (length (vertices o) = (3 * k)%nat) as Hk by lia.
  repeat split; try lia.
  rewrite Hk, Nat.mul_comm. apply Nat.Div0.mod_mul.
Qed.

Lemma flattened_lengths_witness :
  let o := tri_plain_obj "t.obj" in
  length (vertices o) = length (normals o) /\
  length (normals o) = length (indices o) /\
  length (vertices o) = (3 * Loader.faceCount tri_plain)%nat /\
  (length (vertices o) mod 3 = 0)%nat.
Proof.
  apply (flattened_lengths (fs_single "t.obj" tri_plain) no_junk "t.obj"
           tri_plain).
  - reflexivity.
  - vm_compute. reflexivity.
Defined.

(** C4: the file [v 0 0 0 / v 1 0 0 / v 0 1 0 / f 1 2 3] loads as the three
    vertices in file order, three default normals (0,1,0) and the draw
    indices [0,1,2], whatever the uninitialized locals hold. *)
Theorem tri_plain_loads fs junk path :
  fs path = Some tri_plain ->
  Loader.construct fs junk path =
  Done (MkOBJ [Vec3 0 0 0; Vec3 1 0 0; Vec3 0 1 0]
              [Vec3 0 1 0; Vec3 0 1 0; Vec3 0 1 0]
              [0; 1; 2]
              (vec3_splat 0) (vec3_splat 0) (vec3_splat 1) path).
Proof.
  intros H. unfold Loader.construct, Loader.loadOBJ. rewrite H.
  generalize (junk 0%nat), (junk 1%nat), (junk 2%nat), (junk 3%nat).
  intros g0 g1 g2 g3.
  vm_compute. reflexivity.
Qed.

Lemma tri_plain_loads_witness :
  fs_single "t.obj" tri_plain "t.obj"%string = Some tri_plain /\
  Loader.construct (fs_single "t.obj" tri_plain) no_junk "t.obj" =
  Done (tri_plain_obj "t.obj").
Proof.
  split; [reflexivity|].
  apply (tri_plain_loads (fs_single "t.obj" tri_plain) no_junk "t.obj").
  reflexivity.
Defined.

(** The three-field form [f 1/1/1 2/2/2 3/3/3] of the same face keeps the
    file's normals. *)
Lemma tri_full_loads fs junk path :
  fs path = Some tri_full ->
  Loader.construct fs junk path =
  Done (MkOBJ [Vec3 0 0 0; Vec3 1 0 0; Vec3 0 1 0] src_normals [0; 1; 2]
              (vec3_splat 0) (vec3_splat 0) (vec3_splat 1) path).
Proof.
  intros H. unfold Loader.construct, Loader.loadOBJ. rewrite H.
  generalize (junk 0%nat), (junk 1%nat), (junk 2%nat), (junk 3%nat),
             (junk 4%nat), (junk 5%nat), (junk 6%nat).
  intros g0 g1 g2 g3 g4 g5 g6.
  vm_compute. reflexivity.
Qed.

(** In a token [a//n] the second extraction consumes [n] and reaches the
    end of the token, so the third one fails in its sentry and
    [normalIndex] keeps what it held before the line was read. *)
Lemma read_face_slash_slash g R :
  Loader.read_line g "f 1//1 2//2 3//3" R =
  let w := dec32 (wrap32 (Loader.g_normalIndex g)) in
  Loader.Raw (Loader.temp_vertices R) (Loader.temp_normals R)
    (Loader.vertexIndices R ++ [0; 1; 2]) (Loader.normalIndices R ++ [w; w; w]).
Proof.
  unfold Loader.read_line.
  generalize (wrap32 (Loader.g_normalIndex g)), (wrap32 (Loader.g_vertexIndex g)).
  intros w w'. destruct R as [tv tn vis nis].
  cbv -[dec32 app].
  rewrite <- !app_assoc. reflexivity.
Qed.

(** C1: for the file with three [v] lines, three [vn] lines and the face
    [f 1//1 2//2 3//3] the loader returns the three vertices, but one and
    the same normal at all three positions, so the flattened normals are
    not the file's normals. *)
Theorem slash_slash_normals_lost fs junk path :
  fs path = Some tri_normals ->
  exists o n,
    Loader.construct fs junk path = Done o /\
    vertices o = [Vec3 0 0 0; Vec3 1 0 0; Vec3 0 1 0] /\
    normals o = [n; n; n] /\
    ~ Forall2 vec3_eq (normals o) src_normals.
Proof.
  intros H. unfold Loader.construct, Loader.loadOBJ. rewrite H.
  let v := eval vm_compute in
      (Loader.getlines [] (list_ascii_of_string tri_normals)) in
  change (Loader.getlines [] (list_ascii_of_string tri_normals)) with v.
  cbn [Loader.read_lines]. rewrite read_face_slash_slash.
  set (w := dec32 _).
  generalize (junk 0%nat), (junk 1%nat), (junk 2%nat), (junk 3%nat),
             (junk 4%nat), (junk 5%nat).
  intros g0 g1 g2 g3 g4 g5.
  match goal with
  | |- context [Loader.read_line g5 ?l ?R] =>
      let v := eval vm_compute in (Loader.read_line g5 l R) in
      change (Loader.read_line g5 l R) with v
  end.
  set (R := Loader.Raw _ _ _ _).
  exists (MkOBJ [Vec3 0 0 0; Vec3 1 0 0; Vec3 0 1 0]
                (replicate 3 (Loader.normal_at R 0)) [0; 1; 2]
                (vec3_splat 0) (vec3_splat 0) (vec3_splat 1) path),
         (Loader.normal_at R 0).
  repeat split; try reflexivity.
  cbn [normals replicate]. unfold src_normals. intros HF.
  inversion HF as [|? ? ? ? [Hx _] HF']; subst.
  inversion HF' as [|? ? ? ? [Hx' _] _]; subst.
  cbn in Hx, Hx'. rewrite Hx in Hx'. discriminate Hx'.
Qed.

Lemma slash_slash_normals_lost_witness :
  fs_single "t.obj" tri_normals "t.obj"%string = Some tri_normals /\
  exists o n,
    Loader.construct (fs_single "t.obj" tri_normals) no_junk "t.obj" = Done o /\
    vertices o = [Vec3 0 0 0; Vec3 1 0 0; Vec3 0 1 0] /\
    normals o = [n; n; n] /\
    ~ Forall2 vec3_eq (normals o) src_normals.
Proof.
  split; [reflexivity|].
  apply (slash_slash_normals_lost (fs_single "t.obj" tri_normals) no_junk "t.obj").
  reflexivity.
Defined.

(** ** Loading in [main] *)

(** C2: when the asset cannot be opened, [main] still ends up with two
    objects in the registry, each with an empty mesh, and a frame issues a
    draw call for each of them. *)
Theorem open_failure_keeps_empty_objects {G : GLM} fs junk0 junk1 :
  fs asset = None ->
  exists st,
    main_load fs junk0 junk1 = Done (Some st) /\
    length (objects st) = 2%nat /\
    (fun p => vertices <$> heap st !! p) <$> objects st = [Some []; Some []] /\
    (fun p => indices <$> heap st !! p) <$> objects st = [Some []; Some []] /\
    draw_counts (render st) = [0%nat; 0%nat].
Proof.
  intros H. unfold main_load, Loader.construct, Loader.loadOBJ. rewrite H.
  eexists. split; [vm_compute; reflexivity|].
  vm_compute. repeat split.
Qed.

Lemma open_failure_keeps_empty_objects_witness :
  fs_empty asset = None /\
  exists st,
    main_load fs_empty no_junk no_junk = Done (Some st) /\
    length (objects st) = 2%nat /\
    (fun p => vertices <$> heap st !! p) <$> objects st = [Some []; Some []] /\
    (fun p => indices <$> heap st !! p) <$> objects st = [Some []; Some []] /\
    draw_counts (render (G := word_GLM) st) = [0%nat; 0%nat].
Proof.
  split; [reflexivity|].
  apply (open_failure_keeps_empty_objects (G := word_GLM) fs_empty no_junk no_junk).
  reflexivity.
Defined.

(** The loader only writes the three mesh vectors. *)
Lemma process_indices_transform R vis : forall i o o',
  Loader.process_indices R vis i o = Done o' ->
  position o' = position o /\ rotation o' = rotation o /\ scale o' = scale o.
Proof.
  induction vis as [|vi vis IH]; intros i o o' H; cbn in H.
  - injection H as <-. done.
  - destruct (vec_at (Loader.temp_vertices R) vi); [|discriminate].
    apply IH in H. exact H.
Qed.

Lemma construct_transform fs junk path o :
  Loader.construct fs junk path = Done o ->
  position o = vec3_splat 0 /\ rotation o = vec3_splat 0 /\ scale o = vec3_splat 1.
Proof.
  unfold Loader.construct, Loader.loadOBJ. destruct (fs path).
  - destruct (_ <=? _); [discriminate|]. apply process_indices_transform.
  - intros [= <-]. done.
Qed.

Lemma main_load_heap fs junk0 junk1 st :
  main_load fs junk0 junk1 = Done (Some st) ->
  exists o0 o1,
    Loader.construct fs junk0 asset = Done o0 /\
    Loader.construct fs junk1 asset = Done o1 /\
    st = MkViewer (<[1%nat := set_position o1 (Vec3 (3 # 2) 0 0)]>
                     (<[0%nat := set_position o0 (Vec3 (-3 # 2) 0 0)]> ∅))
                  [0%nat; 1%nat] 0 false false false false.
Proof.
  unfold main_load.
  destruct (Loader.construct fs junk0 asset) as [o0|]; [|discriminate].
  destruct (Loader.construct fs junk1 asset) as [o1|]; [|discriminate].
  intros [= <-]. exists o0, o1. repeat split.
Qed.

(** What holds of the state [main] enters its loop with. *)
Lemma main_load_ok fs junk0 junk1 st :
  main_load fs junk0 junk1 = Done (Some st) ->
  NoDup (objects st) /\ allocated st /\ rotation_ok st /\ scale_ok st /\
  selected st = Some 0%nat /\ current_mode st = TranslateMode.
Proof.
  intros H. destruct (main_load_heap _ _ _ _ H) as (o0 & o1 & H0 & H1 & E).
  subst st. clear H.
  destruct (construct_transform _ _ _ _ H0) as (_ & Hr0 & Hs0).
  destruct (construct_transform _ _ _ _ H1) as (_ & Hr1 & Hs1).
  assert (Hall : forall P : OBJ -> Prop,
             P (set_position o0 (Vec3 (-3 # 2) 0 0)) ->
             P (set_position o1 (Vec3 (3 # 2) 0 0)) ->
             heap_all P
               (MkViewer (<[1%nat := set_position o1 (Vec3 (3 # 2) 0 0)]>
                            (<[0%nat := set_position o0 (Vec3 (-3 # 2) 0 0)]> ∅))
                         [0%nat; 1%nat] 0 false false false false)).
  { intros P P0 P1 p o. cbn [heap].
    destruct (decide (p = 1%nat)) as [->|N1].
    { rewrite lookup_insert_eq. by intros [= <-]. }
    rewrite lookup_insert_ne by done.
    destruct (decide (p = 0%nat)) as [->|N0].
    { rewrite lookup_insert_eq. by intros [= <-]. }
    rewrite lookup_insert_ne by done. by rewrite lookup_empty. }
  refine (conj _ (conj _ (conj _ (conj _ (conj _ _))))).
  - cbn. apply NoDup_cons. split; [|apply NoDup_singleton].
    rewrite list_elem_of_singleton. lia.
  - unfold allocated. cbn. repeat constructor.
    + rewrite lookup_insert_ne by done. rewrite lookup_insert_eq. eauto.
    + rewrite lookup_insert_eq. eauto.
  - apply Hall; cbn; [rewrite Hr0 | rewrite Hr1];
      repeat split; reflexivity.
  - apply Hall; cbn; [rewrite Hs0 | rewrite Hs1];
      repeat split; cbn; unfold Qle; cbn; lia.
  - reflexivity.
  - reflexivity.
Qed.

Lemma demo_state_loaded :
  main_load (fs_single asset tri_plain) no_junk no_junk = Done (Some demo_state).
Proof. vm_compute. reflexivity. Qed.

(** ** Selection *)

Example tab_twice_wraps :
  selectedObjectIndex (selectNext (selectNext demo_state)) = 0.
Proof. reflexivity. Qed.


Lemma to_int_small z : - 2 ^ 31 <= z < 2 ^ 31 -> to_int z = z.
Proof. intros H. unfold to_int. rewrite Z.mod_small; lia. Qed.

Lemma to_size_t_small z : 0 <= z < 2 ^ 64 -> to_size_t z = z.
Proof. intros H. unfold to_size_t. apply Z.mod_small; lia. Qed.

Lemma selectNext_index st :
  let n := Z.of_nat (length (objects st)) in
  0 < n <= INT_MAX ->
  0 <= selectedObjectIndex st < n ->
  selectedObjectIndex (selectNext st) = (selectedObjectIndex st + 1) mod n /\
  objects (selectNext st) = objects st.
Proof.
  intros n Hn Hs. unfold selectNext, key_callback. subst n.
  destruct (objects st) as [|p ps] eqn:E; [cbn in Hn; lia|].
  cbn [selectedObjectIndex objects]. split; [|reflexivity].
  set (n := Z.of_nat (length (p :: ps))) in *.
  unfold INT_MAX in Hn.
  rewrite (to_int_small (_ + 1)) by lia.
  rewrite to_size_t_small by lia.
  apply to_int_small.
  pose proof (Z.mod_pos_bound (selectedObjectIndex st + 1) n). lia.
Qed.

Lemma selectNext_iter st k :
  let n := Z.of_nat (length (objects st)) in
  0 < n <= INT_MAX ->
  selectedObjectIndex st = 0 ->
  selectedObjectIndex (Nat.iter k selectNext st) = Z.of_nat k mod n /\
  objects (Nat.iter k selectNext st) = objects st.
Proof.
  intros n Hn H0. induction k as [|k [IHs IHo]].
  - cbn. rewrite H0. rewrite Z.mod_0_l by lia. done.
  - change (Nat.iter (S k) selectNext st)
      with (selectNext (Nat.iter k selectNext st)).
    destruct (selectNext_index (Nat.iter k selectNext st)) as [Hs Ho].
    + rewrite IHo. exact Hn.
    + rewrite IHo, IHs. apply Z.mod_pos_bound. lia.
    + rewrite Hs, Ho, IHo, IHs. split; [|done].
      fold n. rewrite Z.add_mod_idemp_l by lia. f_equal. lia.
Qed.

(** C5: on an empty registry the Tab advance returns the state it was
    given; on a registry of [n > 0] objects (with [n] in the range of the
    [int] index) [k] advances from index 0 leave the index at [k mod n]. *)
Theorem selectNext_cycles st :
  (objects st = [] -> selectNext st = st) /\
  (forall k : nat,
     (0 < length (objects st))%nat ->
     Z.of_nat (length (objects st)) <= INT_MAX ->
     selectedObjectIndex st = 0 ->
     selectedObjectIndex (Nat.iter k selectNext st)
     = Z.of_nat (k mod length (objects st))).
Proof.
  split.
  - intros H. unfold selectNext, key_callback. rewrite H. reflexivity.
  - intros k Hn Hmax H0.
    destruct (selectNext_iter st k) as [Hs _]; [lia|done|].
    rewrite Hs. rewrite Nat2Z.inj_mod. reflexivity.
Qed.

Lemma selectNext_cycles_witness :
  ((0 < length (objects demo_three))%nat /\
   Z.of_nat (length (objects demo_three)) <= INT_MAX /\
   selectedObjectIndex demo_three = 0) /\
  selectedObjectIndex (Nat.iter 5 selectNext demo_three) = 2.
Proof.
  split.
  - cbn. unfold INT_MAX. lia.
  - apply (proj2 (selectNext_cycles demo_three) 5%nat).
    + cbn. lia.
    + cbn. unfold INT_MAX. lia.
    + reflexivity.
Defined.

(** ** The per-frame transform update *)



Example fmodf_values :
  (fmodf 370 360 = 10 /\ fmodf (-725) 360 = -5 /\
   fmodf (7 # 2) 360 = 7 # 2 /\ fmodf (-360) 360 = 0)%Q.
Proof. repeat split. Qed.

(** The rotations after [demo_events]: object 0 was turned for 9 s with W
    and E held (450 degrees, wrapped to 90), object 1 for 20 s with A, S
    and E held (1000 degrees, wrapped to 280). *)
Example demo_run :
  (fun p => rotation <$> heap (run demo_state demo_events) !! p)
    <$> [0%nat; 1%nat]
  = [Some (Vec3 90 0 (-90)); Some (Vec3 (-280) 280 (-280))].
Proof. vm_compute. reflexivity. Qed.

Lemma glm_max_floor a : (1 # 10 <= glm_max a (1 # 10))%Q.
Proof.
  unfold glm_max. destruct (a ?= 1 # 10)%Q eqn:E.
  - apply Qeq_alt in E. rewrite E. apply Qle_refl.
  - apply Qle_refl.
  - apply Qgt_alt in E. apply Qlt_le_weak, E.
Qed.

Lemma glm_max_above a b : (b <= a)%Q -> glm_max a b = a.
Proof.
  intros H. unfold glm_max. destruct (a ?= b)%Q eqn:E; try reflexivity.
  apply Qlt_alt in E. exfalso. apply (Qlt_not_le _ _ E H).
Qed.

Lemma processInput_heap held dt st :
  heap (processInput held dt st) =
  match selected st with
  | Some p =>
      match heap st !! p with
      | Some o =>
          <[p := transform_selected held dt (transformMode st) (transformMode2 st) o]>
            (heap st)
      | None => heap st
      end
  | None => heap st
  end.
Proof.
  unfold processInput. destruct (selected st) as [p|]; [|reflexivity].
  destruct (heap st !! p); reflexivity.
Qed.

Lemma processInput_globals held dt st :
  objects (processInput held dt st) = objects st /\
  selectedObjectIndex (processInput held dt st) = selectedObjectIndex st /\
  transformMode (processInput held dt st) = transformMode st /\
  transformMode2 (processInput held dt st) = transformMode2 st /\
  wireframeMode (processInput held dt st) = wireframeMode st.
Proof.
  unfold processInput. destruct (selected st) as [p|]; [|done].
  destruct (heap st !! p); done.
Qed.

Lemma processInput_selected held dt st :
  selected (processInput held dt st) = selected st.
Proof.
  unfold selected.
  destruct (processInput_globals held dt st) as (-> & -> & _). reflexivity.
Qed.

Lemma key_callback_heap k a st : heap (key_callback k a st) = heap st.
Proof.
  unfold key_callback. destruct a; try reflexivity.
  destruct k; try reflexivity. destruct (objects st); reflexivity.
Qed.

Lemma selected_lookup st p :
  selected st = Some p ->
  exists i, objects st !! i = Some p /\
            Z.of_nat i = to_size_t (selectedObjectIndex st).
Proof.
  unfold selected. destruct (_ || _) eqn:E; [discriminate|].
  intros H. exists (Z.to_nat (to_size_t (selectedObjectIndex st))).
  split; [exact H|].
  rewrite Z2Nat.id; [reflexivity|]. unfold to_size_t.
  apply Z.mod_pos_bound. lia.
Qed.

Lemma selected_guard st :
  objects st = [] \/
  Z.of_nat (length (objects st)) <= to_size_t (selectedObjectIndex st) ->
  selected st = None.
Proof.
  unfold selected. intros [H|H].
  - rewrite H. reflexivity.
  - apply Z.leb_le in H. rewrite H, orb_true_r. reflexivity.
Qed.

Lemma key_callback_objects k a st : objects (key_callback k a st) = objects st.
Proof.
  unfold key_callback. destruct a; try reflexivity.
  destruct k; try reflexivity.
  destruct (objects st) eqn:E; [exact E | reflexivity].
Qed.

(** Nothing after loading adds, removes or reorders registry entries. *)
Lemma run_objects es : forall st, objects (run st es) = objects st.
Proof.
  induction es as [|e es IH]; intros st; [reflexivity|].
  change (run st (e :: es)) with (run (step st e) es).
  rewrite IH. destruct e as [held dt|k a|]; cbn [step].
  - apply processInput_globals.
  - apply key_callback_objects.
  - reflexivity.
Qed.

(** A property of objects that every branch of the update maintains is an
    invariant of every run. *)
Section Invariant.
Variable P : OBJ -> Prop.
Hypothesis transform_keeps :
  forall held dt tm tm2 o, P o -> P (transform_selected held dt tm tm2 o).



End Invariant.


Lemma transform_keeps_scale_floor held dt tm tm2 o :
  floored (scale o) ->
  floored (scale (transform_selected held dt tm tm2 o)).
Proof.
  intros H. unfold transform_selected.
  destruct tm2; [|destruct tm; exact H].
  cbn. repeat split; apply glm_max_floor.
Qed.




(** A frame of 9 s with W and E held turns by 450 degrees: the selected
    object is left at 90 and -90 degrees, not at the end of the range. *)
Example rotate_frame_values :
  rotation <$>
    heap (processInput hold_W_E 9 (key_callback KEY_1 GLFW_PRESS demo_state))
      !! 0%nat
  = Some (Vec3 90 0 (-90)).
Proof. vm_compute. reflexivity. Qed.

(** C10: a frame's update leaves the registry, the selection and the mode
    flags alone; with no selectable object it leaves the whole heap alone;
    otherwise it writes to the selected object only, keeps that object's
    mesh, and keeps the two transform fields that do not belong to the
    current mode.  With distinct pointers in the registry, the object at
    every unselected index is unchanged. *)
Theorem processInput_frame held dt st :
  NoDup (objects st) ->
  let st' := processInput held dt st in
  objects st' = objects st /\
  selectedObjectIndex st' = selectedObjectIndex st /\
  current_mode st' = current_mode st /\
  wireframeMode st' = wireframeMode st /\
  (objects st = [] \/
   Z.of_nat (length (objects st)) <= to_size_t (selectedObjectIndex st) ->
   heap st' = heap st) /\
  match selected st with
  | None => heap st' = heap st
  | Some p =>
      (forall q, q <> p -> heap st' !! q = heap st !! q) /\
      (forall i q, objects st !! i = Some q ->
                   Z.of_nat i <> to_size_t (selectedObjectIndex st) ->
                   heap st' !! q = heap st !! q) /\
      (forall o, heap st !! p = Some o ->
                 exists o', heap st' !! p = Some o' /\
                            same_mesh o o' /\ frame_of (current_mode st) o o')
  end.
Proof.
  intros Hnd st'. subst st'.
  destruct (processInput_globals held dt st) as (Ho & Hi & Htm & Htm2 & Hw).
  refine (conj Ho (conj Hi (conj _ (conj Hw (conj _ _))))).
  { unfold current_mode. by rewrite Htm, Htm2. }
  { intros Hg. rewrite processInput_heap, (selected_guard st Hg). reflexivity. }
  rewrite processInput_heap.
  destruct (selected st) as [p|] eqn:Hs; [|reflexivity].
  assert (Hother : forall q, q <> p ->
            match heap st !! p with
            | Some o =>
                <[p:=transform_selected held dt (transformMode st)
                       (transformMode2 st) o]> (heap st)
            | None => heap st
            end !! q = heap st !! q).
  { intros q Hq. destruct (heap st !! p); [|reflexivity].
    by rewrite lookup_insert_ne. }
  split; [exact Hother|split].
  - intros i q Hq Hi'. apply Hother. intros ->.
    destruct (selected_lookup st p Hs) as (j & Hj & Hj').
    assert (i = j) by (eapply NoDup_lookup; eassumption). lia.
  - intros o Hp. rewrite Hp. eexists. split; [apply lookup_insert_eq|].
    unfold transform_selected, current_mode, same_mesh.
    destruct (transformMode2 st), (transformMode st); cbn; done.
Qed.

Lemma processInput_frame_witness :
  NoDup (objects demo_state) /\
  forall i q, objects demo_state !! i = Some q ->
              Z.of_nat i <> to_size_t (selectedObjectIndex demo_state) ->
              heap (processInput hold_W_E 2 demo_state) !! q
              = heap demo_state !! q.
Proof.
  pose proof (main_load_ok _ _ _ _ demo_state_loaded) as (H & _).
  split; [exact H|].
  exact (proj1 (proj2 (proj2 (proj2 (proj2 (proj2 (proj2
           (processInput_frame hold_W_E 2 demo_state H)))))))).
Defined.

(** ** Binary32: the comparison *)

Lemma digits2_pos_size m : digits2_pos m = Pos.size m.
Proof. induction m as [m IH|m IH|]; cbn; by rewrite ?IH. Qed.

Lemma digits2_pos_bounds m :
  2 ^ (Z.pos (digits2_pos m) - 1) <= Z.pos m < 2 ^ Z.pos (digits2_pos m).
Proof.
  rewrite digits2_pos_size.
  pose proof (Pos.size_gt m) as Hgt. pose proof (Pos.size_le m) as Hle.
  apply Pos2Z.pos_lt_pos in Hgt. apply Pos2Z.pos_le_pos in Hle.
  rewrite Pos2Z.inj_pow in Hgt, Hle.
  change (Z.pos m~0) with (2 * Z.pos m) in Hle.
  split; [|exact Hgt].
  replace (Z.pos (Pos.size m)) with (Z.succ (Z.pos (Pos.size m) - 1)) in Hle
    by lia.
  rewrite Z.pow_succ_r in Hle by lia. lia.
Qed.

(** A canonical mantissa has at most 24 digits, and exactly 24 above the
    least exponent. *)
Lemma canonical_bounds m e :
  canonical_mantissa Binary32.prec Binary32.emax m e = true ->
  -149 <= e /\ Z.pos m < 2 ^ 24 /\ (-149 < e -> 2 ^ 23 <= Z.pos m).
Proof.
  unfold canonical_mantissa, fexp, emin, Binary32.prec, Binary32.emax.
  intros H. apply Z.eqb_eq in H.
  pose proof (digits2_pos_bounds m) as [Hlo Hhi].
  set (d := Z.pos (digits2_pos m)) in *.
  assert (Hd : 0 < d) by (subst d; lia).
  split; [lia|]. split.
  - eapply Z.lt_le_trans; [exact Hhi|].
    apply Z.pow_le_mono_r; lia.
  - intros He. assert (d = 24) as Hd24 by lia. rewrite Hd24 in Hlo.
    exact Hlo.
Qed.

Lemma Qpower_2_pos e : (0 < 2 ^ e)%Q.
Proof. apply Qpower_0_lt. reflexivity. Qed.

Lemma Qcompare_mult_r a b c :
  (0 < c)%Q -> (a * c ?= b * c)%Q = (a ?= b)%Q.
Proof.
  intros Hc. destruct (Qcompare_spec a b) as [E|E|E].
  - apply (proj1 (Qeq_alt _ _)). rewrite E. reflexivity.
  - apply (proj1 (Qlt_alt _ _)). apply Qmult_lt_compat_r; assumption.
  - apply (proj1 (Qgt_alt _ _)). apply Qmult_lt_compat_r; assumption.
Qed.

Lemma Qcompare_inject_Z a b : (inject_Z a ?= inject_Z b)%Q = (a ?= b).
Proof. unfold Qcompare. cbn. by rewrite !Z.mul_1_r. Qed.

(** Numbers [a * 2^e] compare as the integers they become at the smaller
    of the two exponents. *)
Lemma Qcompare_scaled a1 e1 a2 e2 :
  e1 <= e2 ->
  (inject_Z a1 * 2 ^ e1 ?= inject_Z a2 * 2 ^ e2)%Q
  = (a1 ?= a2 * 2 ^ (e2 - e1)).
Proof.
  intros He.
  assert (E : (inject_Z a2 * 2 ^ e2 == inject_Z (a2 * 2 ^ (e2 - e1)) * 2 ^ e1)%Q).
  { rewrite inject_Z_mult.
    rewrite (Zpower_Qpower 2 (e2 - e1)) by lia.
    rewrite <- Qmult_assoc, <- Qpower_plus by discriminate.
    replace (e2 - e1 + e1) with e2 by lia. reflexivity. }
  rewrite E, Qcompare_mult_r by apply Qpower_2_pos.
  apply Qcompare_inject_Z.
Qed.

(** Canonical positive floats compare by exponent, then by mantissa. *)
Lemma canonical_compare m1 e1 m2 e2 :
  canonical_mantissa Binary32.prec Binary32.emax m1 e1 = true ->
  canonical_mantissa Binary32.prec Binary32.emax m2 e2 = true ->
  (inject_Z (Z.pos m1) * 2 ^ e1 ?= inject_Z (Z.pos m2) * 2 ^ e2)%Q
  = match e1 ?= e2 with
    | Lt => Lt
    | Gt => Gt
    | Eq => Pos.compare_cont Eq m1 m2
    end.
Proof.
  intros H1 H2.
  apply canonical_bounds in H1 as (L1 & U1 & N1).
  apply canonical_bounds in H2 as (L2 & U2 & N2).
  destruct (Z.compare_spec e1 e2) as [E|E|E].
  - subst e2. rewrite Qcompare_scaled by lia.
    rewrite Z.sub_diag, Z.mul_1_r. reflexivity.
  - rewrite Qcompare_scaled by lia. apply Z.compare_lt_iff.
    assert (2 <= 2 ^ (e2 - e1)).
    { change 2 with (2 ^ 1) at 1. apply Z.pow_le_mono_r; lia. }
    specialize (N2 ltac:(lia)). nia.
  - rewrite <- Qcompare_antisym, Qcompare_scaled by lia.
    assert (2 <= 2 ^ (e1 - e2)).
    { change 2 with (2 ^ 1) at 1. apply Z.pow_le_mono_r; lia. }
    specialize (N1 ltac:(lia)).
    assert ((Z.pos m2 ?= Z.pos m1 * 2 ^ (e1 - e2)) = Lt) as ->
      by (apply Z.compare_lt_iff; nia).
    reflexivity.
Qed.

Lemma Qcompare_opp a b : (- a ?= - b)%Q = CompOpp (a ?= b)%Q.
Proof.
  rewrite Qcompare_antisym.
  destruct (Qcompare_spec b a) as [E|E|E].
  - apply (proj1 (Qeq_alt _ _)). rewrite E. reflexivity.
  - apply (proj1 (Qlt_alt _ _)). lra.
  - apply (proj1 (Qgt_alt _ _)). lra.
Qed.

Lemma finite_pos m e : (0 < inject_Z (Z.pos m) * 2 ^ e)%Q.
Proof.
  apply Qmult_lt_0_compat; [reflexivity|apply Qpower_2_pos].
Qed.

Lemma finite_neg m e : (inject_Z (Z.neg m) * 2 ^ e < 0)%Q.
Proof.
  pose proof (finite_pos m e) as H.
  assert (E : (inject_Z (Z.neg m) * 2 ^ e == - (inject_Z (Z.pos m) * 2 ^ e))%Q).
  { change (Z.neg m) with (- Z.pos m). rewrite inject_Z_opp. ring. }
  rewrite E. lra.
Qed.

(** On canonical floats, [Binary32.lt] is the comparison [SFltb] of the
    Standard Library. *)
Lemma lt_SFltb x y : valid x -> valid y -> Binary32.lt x y = SFltb x y.
Proof.
  unfold valid, Binary32.lt, SFltb.
  destruct x as [sx|sx| |sx mx ex], y as [sy|sy| |sy my ey];
    try (destruct sx); try (destruct sy); try reflexivity;
    cbn [valid_binary SFcompare Binary32.value]; unfold bounded;
    intros Hx Hy;
    try (apply andb_true_iff in Hx as [Hx _]);
    try (apply andb_true_iff in Hy as [Hy _]);
    rewrite ?Qred_correct;
    try (pose proof (finite_pos mx ex) as Px; pose proof (finite_neg mx ex) as Nx);
    try (pose proof (finite_pos my ey) as Py; pose proof (finite_neg my ey) as Ny);
    lazymatch goal with
    | |- match (?a ?= ?b)%Q with _ => _ end = true =>
        assert (H : (a < b)%Q) by lra;
        apply (proj1 (Qlt_alt _ _)) in H; by rewrite H
    | |- match (?a ?= ?b)%Q with _ => _ end = false =>
        assert (H : (b < a)%Q) by lra;
        apply (proj1 (Qgt_alt _ _)) in H; by rewrite H
    | _ => idtac
    end.
  - (* both negative *)
    assert (E : forall m e, (inject_Z (Z.neg m) * 2 ^ e
                             == - (inject_Z (Z.pos m) * 2 ^ e))%Q).
    { intros m e. change (Z.neg m) with (- Z.pos m). rewrite inject_Z_opp. ring. }
    rewrite !E, Qcompare_opp, (canonical_compare _ _ _ _ Hx Hy).
    destruct (ex ?= ey); reflexivity.
  - (* both positive *)
    rewrite (canonical_compare _ _ _ _ Hx Hy).
    destruct (ex ?= ey); reflexivity.
Qed.

(** ** The scale update in binary32 *)

(** The literals of the update, as numbers. *)
Example binary32_literals :
  Binary32.value Binary32.f0_1 = Some (13421773 # 134217728) /\
  Binary32.value Binary32.scaleSpeed = Some scaleSpeed /\
  Binary32.value (Binary32.of_Z 360) = Some 360%Q /\
  Binary32.value dt_60 = Some (8947849 # 536870912) /\
  Binary32.value dt_30 = Some (8947849 # 268435456).
Proof. vm_compute. repeat split. Qed.

(** [0.1f] is a float above one tenth. *)
Lemma f0_1_value :
  Binary32.f0_1 = S754_finite false 13421773 (-27) /\
  Binary32.value Binary32.f0_1 = Some floor_value /\
  (1 # 10 < floor_value)%Q.
Proof. vm_compute. repeat split. Qed.

Example binary32_fmod_values :
  Binary32.fmod (Binary32.of_Z 370) (Binary32.of_Z 360) = Binary32.of_Z 10 /\
  Binary32.fmod (Binary32.of_Z (-725)) (Binary32.of_Z 360) = Binary32.of_Z (-5) /\
  Binary32.fmod (Binary32.of_Z (-720)) (Binary32.of_Z 360) = S754_zero true /\
  Binary32.fmod dt_60 (Binary32.of_Z 360) = dt_60.
Proof. vm_compute. repeat split. Qed.

Lemma binary32_processInput_heap held dt st :
  Binary32.heap (Binary32.processInput held dt st) =
  match Binary32.selected st with
  | Some p =>
      match Binary32.heap st !! p with
      | Some o =>
          <[p := Binary32.transform_selected held dt
                   (Binary32.transformMode st) (Binary32.transformMode2 st) o]>
            (Binary32.heap st)
      | None => Binary32.heap st
      end
  | None => Binary32.heap st
  end.
Proof.
  unfold Binary32.processInput.
  destruct (Binary32.selected st) as [p|]; [|reflexivity].
  destruct (Binary32.heap st !! p); reflexivity.
Qed.

Lemma binary32_processInput_globals held dt st :
  Binary32.objects (Binary32.processInput held dt st) = Binary32.objects st /\
  Binary32.selectedObjectIndex (Binary32.processInput held dt st)
    = Binary32.selectedObjectIndex st /\
  Binary32.transformMode (Binary32.processInput held dt st)
    = Binary32.transformMode st /\
  Binary32.transformMode2 (Binary32.processInput held dt st)
    = Binary32.transformMode2 st.
Proof.
  unfold Binary32.processInput.
  destruct (Binary32.selected st) as [p|]; [|done].
  destruct (Binary32.heap st !! p); done.
Qed.

Lemma binary32_processInput_selected held dt st :
  Binary32.selected (Binary32.processInput held dt st) = Binary32.selected st.
Proof.
  unfold Binary32.selected.
  destruct (binary32_processInput_globals held dt st) as (-> & -> & _).
  reflexivity.
Qed.

(** The two embeddings of [processInput] run the same control flow: from
    states with the same registry, selection, mode flags, close flag and
    live pointers, they select the same object and leave states that again
    agree on all of that. *)
Lemma models_agree_on_control held dt dt32 st st32 :
  same_control st st32 ->
  selected st = Binary32.selected st32 /\
  same_control (processInput held dt st) (Binary32.processInput held dt32 st32).
Proof.
  intros (Ho & Hi & Htm & Htm2 & Hc & Hd).
  assert (Hs : selected st = Binary32.selected st32).
  { unfold selected, Binary32.selected. by rewrite Ho, Hi. }
  split; [exact Hs|].
  unfold processInput, Binary32.processInput. rewrite <- Hs.
  destruct (selected st) as [p|]; [|by rewrite Hc].
  destruct (heap st !! p) as [o|] eqn:E;
    destruct (Binary32.heap st32 !! p) as [o32|] eqn:E32.
  - repeat split; cbn; try done; [by rewrite Hc|].
    by rewrite !dom_insert_L, Hd.
  - exfalso. apply not_elem_of_dom in E32. apply E32. rewrite <- Hd.
    apply elem_of_dom. eauto.
  - exfalso. apply not_elem_of_dom in E. apply E. rewrite Hd.
    apply elem_of_dom. eauto.
  - repeat split; cbn; try done. by rewrite Hc.
Qed.

(** [scale_state32] is the state of [main] after a press of 3, up to the
    numbers. *)
Example scale_state32_control :
  same_control (key_callback KEY_3 GLFW_PRESS demo_state) scale_state32.
Proof. repeat split. Qed.

(** What the test [c < 0.1f] says when it fails. *)
Lemma not_below_at_least c : not_below_floor c -> at_least_floor c.
Proof.
  unfold not_below_floor, at_least_floor.
  destruct f0_1_value as (-> & _).
  destruct c as [s|[|]| |s m e]; cbn [Binary32.lt]; intros H.
  - exfalso. revert H. vm_compute. discriminate.
  - discriminate.
  - split; [discriminate|]. intros q [=].
  - split; [discriminate|]. intros q [=].
  - split; [discriminate|]. intros q Hq.
    cbn [Binary32.value] in H, Hq. injection Hq as <-.
    change (Qred (inject_Z 13421773 * 2 ^ (-27))) with floor_value in H.
    destruct (_ ?= floor_value)%Q eqn:E; try discriminate.
    + apply Qeq_alt in E. rewrite E. apply Qle_refl.
    + apply Qgt_alt in E. apply Qlt_le_weak, E.
Qed.

(** [glm::max(a, 0.1f)] is never below [0.1f], whatever [a] is. *)
Lemma glm_max_at_least a :
  at_least_floor (Binary32.glm_max a Binary32.f0_1).
Proof.
  unfold Binary32.glm_max.
  destruct (Binary32.lt a Binary32.f0_1) eqn:E.
  - destruct f0_1_value as (Ef & Ev & _). split.
    + rewrite Ef. discriminate.
    + intros q. rewrite Ev. intros [= <-]. apply Qle_refl.
  - by apply not_below_at_least.
Qed.

Lemma binary32_transform_keeps_floor held dt tm tm2 o :
  floored32 (Binary32.scale o) ->
  floored32 (Binary32.scale (Binary32.transform_selected held dt tm tm2 o)).
Proof.
  intros H. unfold Binary32.transform_selected.
  destruct tm2; [|destruct tm; exact H].
  cbn [Binary32.scale Binary32.set_scale].
  unfold Binary32.scale_branch, Binary32.glm_max3, floored32.
  cbn [Binary32.vx Binary32.vy Binary32.vz Binary32.vec3_splat].
  split; [|split]; apply glm_max_at_least.
Qed.

Lemma binary32_frame_keeps_floor held dt st :
  scale_ok32 st -> scale_ok32 (Binary32.processInput held dt st).
Proof.
  intros Hst q oq. rewrite binary32_processInput_heap.
  destruct (Binary32.selected st) as [p|]; [|apply Hst].
  destruct (Binary32.heap st !! p) as [o|] eqn:Ep; [|apply Hst].
  destruct (decide (q = p)) as [->|Hne].
  - rewrite lookup_insert_eq. intros [= <-].
    apply binary32_transform_keeps_floor, (Hst p o Ep).
  - rewrite lookup_insert_ne by done. apply Hst.
Qed.

Lemma binary32_run_keeps_floor fs : forall st,
  scale_ok32 st -> scale_ok32 (Binary32.run st fs).
Proof.
  induction fs as [|f fs IH]; intros st Hst; [exact Hst|].
  cbn. apply IH, binary32_frame_keeps_floor, Hst.
Qed.

(** One frame in Scale mode with D held and A released. *)
Lemma scale_frame_plus_x held dt st p o :
  Binary32.transformMode2 st = true ->
  Binary32.selected st = Some p ->
  Binary32.heap st !! p = Some o ->
  holds_plus_x (held, dt) ->
  exists o',
    Binary32.heap (Binary32.processInput held dt st) !! p = Some o' /\
    Binary32.vx (Binary32.scale o')
      = scale_step (Binary32.vx (Binary32.scale o)) dt.
Proof.
  intros Hm Hs Hp (HD & HA). cbn in HD, HA.
  rewrite binary32_processInput_heap, Hs, Hp, Hm.
  eexists. split; [apply lookup_insert_eq|].
  cbn. rewrite HD, HA. reflexivity.
Qed.

Lemma scale_frames_plus_x frames : forall st p o,
  Binary32.transformMode2 st = true ->
  Binary32.selected st = Some p ->
  Binary32.heap st !! p = Some o ->
  Forall holds_plus_x frames ->
  exists o',
    Binary32.heap (Binary32.run st frames) !! p = Some o' /\
    Binary32.vx (Binary32.scale o')
      = fold_left scale_step (map snd frames) (Binary32.vx (Binary32.scale o)).
Proof.
  induction frames as [|[held dt] frames IH]; intros st p o Hm Hs Hp HF.
  - exists o. split; [exact Hp|reflexivity].
  - inversion HF as [|? ? Hf HF']; subst.
    destruct (scale_frame_plus_x held dt st p o Hm Hs Hp Hf)
      as (o1 & Hp1 & Hx1).
    destruct (IH (Binary32.processInput held dt st) p o1) as (o' & Hp' & Hx');
      try assumption.
    + destruct (binary32_processInput_globals held dt st) as (_ & _ & _ & ->).
      exact Hm.
    + rewrite binary32_processInput_selected. exact Hs.
    + exists o'. split; [exact Hp'|].
      rewrite Hx', Hx1. reflexivity.
Qed.

(** When no update rounds or clamps, the updates add up. *)
Lemma exact_steps_total dts : forall x a,
  Binary32.value x = Some a ->
  exact_steps x dts ->
  exists t c,
    total_time dts = Some t /\
    Binary32.value (fold_left scale_step dts x) = Some c /\
    (c == a + scaleSpeed * t)%Q.
Proof.
  induction dts as [|dt dts IH]; intros x a Hx He.
  - exists 0%Q, a. repeat split; [exact Hx|]. unfold scaleSpeed. lra.
  - destruct He as [H1 He]. unfold exact_step in H1. rewrite Hx in H1.
    destruct (Binary32.value dt) as [d|] eqn:Ed; [|contradiction].
    destruct (Binary32.value (scale_step x dt)) as [c1|] eqn:Ec; [|contradiction].
    destruct (IH _ _ Ec He) as (t & c & Ht & Hc & E).
    exists (Qred (d + t)), c. cbn [total_time fold_left].
    rewrite Ed, Ht. repeat split; [exact Hc|].
    rewrite Qred_correct, E, H1. unfold scaleSpeed. lra.
Qed.

(** C7 (amended): in Scale mode with D held and A released, every frame
    replaces [scale.x] of the selected object by
    [max(scale.x + scaleSpeed * deltaTime, 0.1f)], product and sum each
    rounded to binary32; the frames of a run accumulate these updates, and
    the result is [scale.x + scaleSpeed * t] when no update rounds or
    clamps.  From a state with no scale component below [0.1f], no
    sequence of frames leaves a scale component below [0.1f]: none is
    minus infinity, and every one that is a number is at least
    13421773/134217728, which is above 0.1. *)
Theorem scale_hold_plus_x_rounded st p o frames :
  scale_ok32 st ->
  Binary32.transformMode2 st = true ->
  Binary32.selected st = Some p ->
  Binary32.heap st !! p = Some o ->
  Forall holds_plus_x frames ->
  (exists o',
     Binary32.heap (Binary32.run st frames) !! p = Some o' /\
     Binary32.vx (Binary32.scale o')
       = fold_left scale_step (map snd frames)
           (Binary32.vx (Binary32.scale o)) /\
     forall a,
       Binary32.value (Binary32.vx (Binary32.scale o)) = Some a ->
       exact_steps (Binary32.vx (Binary32.scale o)) (map snd frames) ->
       exists t c,
         total_time (map snd frames) = Some t /\
         Binary32.value (Binary32.vx (Binary32.scale o')) = Some c /\
         (c == a + scaleSpeed * t)%Q) /\
  forall fs, scale_ok32 (Binary32.run st fs).
Proof.
  intros Hok Hm Hs Hp HF. split.
  - destruct (scale_frames_plus_x frames st p o Hm Hs Hp HF) as (o' & Ho' & Hx).
    exists o'. split; [exact Ho'|]. split; [exact Hx|].
    intros a Ha He. rewrite Hx. by apply exact_steps_total.
  - intros fs. by apply binary32_run_keeps_floor.
Qed.

Lemma loaded_obj32_floor x : floored32 (Binary32.scale (loaded_obj32 x)).
Proof.
  assert (H : at_least_floor (Binary32.of_Z 1)).
  { apply not_below_at_least. reflexivity. }
  repeat split; apply H.
Qed.

Lemma scale_state32_floor : scale_ok32 scale_state32.
Proof.
  intros p o. unfold scale_state32. cbn [Binary32.heap].
  rewrite lookup_insert_Some. intros [[_ <-]|[_ H]].
  - apply loaded_obj32_floor.
  - apply lookup_insert_Some in H as [[_ <-]|[_ H]].
    + apply loaded_obj32_floor.
    + rewrite lookup_empty in H. discriminate.
Qed.

Lemma scale_hold_plus_x_rounded_witness :
  (exists o',
     Binary32.heap (Binary32.run scale_state32 dyadic_frames) !! 0%nat
       = Some o' /\
     exists t c,
       total_time (map snd dyadic_frames) = Some t /\
       Binary32.value (Binary32.vx (Binary32.scale o')) = Some c /\
       (t == 3 # 64)%Q /\ (c == 1 + scaleSpeed * t)%Q) /\
  scale_ok32 (Binary32.run scale_state32 second_at_60fps).
Proof.
  destruct (scale_hold_plus_x_rounded scale_state32 0%nat
              (loaded_obj32 (Binary32.div (Binary32.of_Z (-3)) (Binary32.of_Z 2)))
              dyadic_frames scale_state32_floor eq_refl eq_refl eq_refl)
    as [(o' & Ho' & _ & Hex) Hfl].
  { repeat constructor. }
  split; [|apply Hfl].
  exists o'. split; [exact Ho'|].
  destruct (Hex 1%Q) as (t & c & Ht & Hc & E).
  { vm_compute. reflexivity. }
  { vm_compute. repeat split. }
  exists t, c. repeat split; try assumption.
  vm_compute in Ht. injection Ht as <-. reflexivity.
Defined.

(** C7, counterexample: D held for one second at 60 frames per second in
    Scale mode, from [scale.x = 1].  No update is clamped and the frame
    times sum to [t = 134217735/134217728], but [scale.x] ends at
    [2097151/1048576], short of [1 + scaleSpeed * t] by [135/134217728]:
    more than eight units in the last place. *)
Lemma scale_hold_plus_x_inexact :
  Forall holds_plus_x second_at_60fps /\
  never_clamped (Binary32.of_Z 1) (map snd second_at_60fps) /\
  exists o' x' t,
    Binary32.heap (Binary32.run scale_state32 second_at_60fps) !! 0%nat
      = Some o' /\
    Binary32.value (Binary32.vx (Binary32.scale o')) = Some x' /\
    total_time (map snd second_at_60fps) = Some t /\
    (x' == 2097151 # 1048576)%Q /\
    (t == 134217735 # 134217728)%Q /\
    (1 + scaleSpeed * t - x' == 135 # 134217728)%Q /\
    ~ (x' == 1 + scaleSpeed * t)%Q.
Proof.
  split; [vm_compute; repeat constructor|].
  split; [vm_compute; repeat split|].
  eexists _, _, _.
  split; [vm_compute; reflexivity|].
  split; [vm_compute; reflexivity|].
  split; [vm_compute; reflexivity|].
  vm_compute. repeat split; discriminate.
Qed.

(** The frames of 1/60 s and 1/30 s: [scale.x] ends at 4404019/4194304,
    not at [1 + 1/60 + 1/30]. *)
Example two_frames_value :
  (fun o => Binary32.value (Binary32.vx (Binary32.scale o))) <$>
    Binary32.heap (Binary32.run scale_state32 two_frames) !! 0%nat
  = Some (Some (4404019 # 4194304)).
Proof. vm_compute. reflexivity. Qed.

(** Rotate mode, W held for ten seconds at 60 frames per second: the
    pitch ends at 140 + 47/65536 degrees, not at the 140 degrees that 500
    degrees wrap to. *)
Example ten_seconds_of_pitch :
  (fun o => Binary32.value (Binary32.vx (Binary32.rotation o))) <$>
    Binary32.heap (Binary32.run rotate_state32 (repeat (hold_W, dt_60) 600))
      !! 0%nat
  = Some (Some (9175087 # 65536)).
Proof. vm_compute. reflexivity. Qed.

(** ** Drawing *)

Section RenderFacts.
Context {G : GLM}.

Lemma rasterize_draw o sel wf m rest :
  rasterize m (draw o sel wf ++ rest) =
  ((if sel && wf then GL_LINE else GL_FILL) :: fst (rasterize GL_FILL rest),
   snd (rasterize GL_FILL rest)).
Proof.
  unfold draw. destruct (sel && wf); cbn;
    destruct (rasterize GL_FILL rest); reflexivity.
Qed.

Lemma rasterize_draw_from st ps : forall i m,
  Forall (fun p => is_Some (heap st !! p)) ps ->
  rasterize m (draw_from st i ps) =
  (map (expected_mode st) (seq i (length ps)),
   match ps with [] => m | _ => GL_FILL end).
Proof.
  induction ps as [|p ps IH]; intros i m Hall; [reflexivity|].
  inversion Hall as [|? ? [o Ho] Hall']; subst.
  cbn [draw_from length seq map]. unfold draw_nth. rewrite Ho.
  rewrite rasterize_draw, (IH (S i) GL_FILL Hall'). cbn [fst snd].
  unfold expected_mode at 1. f_equal. destruct ps; reflexivity.
Qed.

(** C8: while a frame draws the registry, after the first [k] objects (for
    every [k]) the polygon modes the draws were rasterized with are, in
    order, line mode for an object that is selected while the wireframe
    flag is set and fill mode for every other object, and the mode left
    in force is fill mode; so line mode is used exactly for a selected
    object with the flag set, and is never in force for a later object. *)
Theorem wireframe_only_selected st m0 k :
  allocated st ->
  let drawn := take k (objects st) in
  rasterize m0 (draw_from st 0 drawn) =
  (map (expected_mode st) (seq 0 (length drawn)),
   match drawn with [] => m0 | _ => GL_FILL end) /\
  forall i : nat,
    expected_mode st i = GL_LINE <->
    Z.of_nat i = to_size_t (selectedObjectIndex st) /\ wireframeMode st = true.
Proof.
  intros Hall drawn. split.
  - apply rasterize_draw_from. subst drawn. apply Forall_take, Hall.
  - intros i. unfold expected_mode.
    destruct (Z.eqb_spec (Z.of_nat i) (to_size_t (selectedObjectIndex st)));
      destruct (wireframeMode st); cbn; split; try done; intros []; done.
Qed.

(** C9: the matrix [draw] uploads as [model] is the product
    Translate(position) * RotateX(rotation.x) * RotateY(rotation.y) *
    RotateZ(rotation.z) * Scale(scale), the factors in that order. *)
Theorem draw_model_matrix {L : GLMLaws G} o sel wf :
  submitted_model (draw o sel wf) =
  Some (mat4_mul (Translate (position o))
          (mat4_mul (RotateX (vx (rotation o)))
             (mat4_mul (RotateY (vy (rotation o)))
                (mat4_mul (RotateZ (vz (rotation o))) (Scale (scale o)))))).
Proof.
  cbn. unfold model_matrix, glm_translate, glm_rotate, glm_scale.
  rewrite mat4_mul_id_l, !mat4_mul_assoc. reflexivity.
Qed.

End RenderFacts.

#[export] Instance word_GLM_laws : GLMLaws word_GLM.
Proof. split; [reflexivity | intros a b c; symmetry; apply app_assoc]. Qed.

Lemma wireframe_only_selected_witness :
  let st := key_callback KEY_4 GLFW_PRESS demo_state in
  allocated st /\
  rasterize (G := word_GLM) GL_LINE (render st) = ([GL_LINE; GL_FILL], GL_FILL).
Proof.
  cbv zeta.
  pose proof (main_load_ok _ _ _ _ demo_state_loaded) as (_ & H & _).
  split; [exact H|].
  exact (proj1 (wireframe_only_selected (G := word_GLM)
                  (key_callback KEY_4 GLFW_PRESS demo_state) GL_LINE 2 H)).
Defined.

Lemma draw_model_matrix_witness :
  submitted_model (G := word_GLM)
    (draw (MkOBJ [] [] [] (Vec3 1 2 3) (Vec3 10 20 30) (Vec3 2 2 2) "o") true true)
  = Some [FTranslate (Vec3 1 2 3);
          FRotate 10 axis_x; FRotate 20 axis_y; FRotate 30 axis_z;
          FScale (Vec3 2 2 2)].
Proof.
  exact (draw_model_matrix (G := word_GLM) (L := word_GLM_laws)
           (MkOBJ [] [] [] (Vec3 1 2 3) (Vec3 10 20 30) (Vec3 2 2 2) "o")
           true true).
Defined.

(** * Further properties *)

(** ** The loader: outcome and flattening *)

Lemma vec_at_Some {A : Type} (v : list A) i x :
  vec_at v i = Some x -> in_bounds v i /\ x ∈ v.
Proof.
  unfold vec_at, in_bounds. destruct (_ && _) eqn:E; [|discriminate].
  apply andb_true_iff in E as [E1 E2]. intros H. split; [lia|].
  apply list_elem_of_lookup. eauto.
Qed.

(** What the flattening loop appends to the three vectors. *)
Lemma process_indices_spec R vis : forall i o o',
  Loader.process_indices R vis i o = Done o' ->
  Some <$> (drop (length (vertices o)) (vertices o'))
    = vec_at (Loader.temp_vertices R) <$> vis /\
  vertices o' = vertices o ++ drop (length (vertices o)) (vertices o') /\
  normals o' = normals o ++ (Loader.normal_at R <$> seq i (length vis)) /\
  indices o' = indices o ++ (Z.of_nat <$> seq i (length vis)).
Proof.
  induction vis as [|vi vis IH]; intros i o o' H; cbn in H.
  - injection H as <-. rewrite drop_all. cbn. rewrite !app_nil_r. done.
  - destruct (vec_at (Loader.temp_vertices R) vi) as [v|] eqn:Ev; [|discriminate].
    apply IH in H. cbn [vertices normals indices set_mesh] in H.
    destruct H as (Hd & Hv & Hn & Hi).
    rewrite length_app in Hd, Hv. cbn in Hd, Hv.
    assert (Hdrop : drop (length (vertices o)) (vertices o') =
                    v :: drop (length (vertices o) + 1) (vertices o')).
    { rewrite Hv at 1. rewrite <- app_assoc. rewrite drop_app_length.
      reflexivity. }
    rewrite Hdrop. cbn [fmap list_fmap length seq].
    repeat split.
    + cbn. rewrite Ev. f_equal. exact Hd.
    + rewrite Hv at 1. rewrite <- app_assoc. reflexivity.
    + rewrite Hn, <- app_assoc. reflexivity.
    + rewrite Hi, <- app_assoc. reflexivity.
Qed.

Lemma construct_flattens fs junk path content o :
  fs path = Some content ->
  Loader.construct fs junk path = Done o ->
  let R := read_file junk content in
  let n := length (Loader.vertexIndices R) in
  indices o = Z.of_nat <$> seq 0 n /\
  Some <$> vertices o
    = vec_at (Loader.temp_vertices R) <$> Loader.vertexIndices R /\
  normals o = Loader.normal_at R <$> seq 0 n.
Proof.
  intros Hfs. unfold Loader.construct, Loader.loadOBJ. rewrite Hfs.
  fold (read_file junk content).
  destruct (2 ^ 32 <=? _); [discriminate|].
  intros H. apply process_indices_spec in H. cbn in H.
  destruct H as (Hd & _ & Hn & Hi). rewrite drop_0 in Hd. done.
Qed.

Lemma normal_at_cases R i :
  Loader.normal_at R i = Loader.up \/
  Loader.normal_at R i ∈ Loader.temp_normals R.
Proof.
  unfold Loader.normal_at.
  destruct (Loader.normalIndices R !! i) as [ni|]; [|by left].
  destruct (ni <? _); [|by left].
  destruct (vec_at (Loader.temp_normals R) ni) as [n|] eqn:E; [|by left].
  right. by apply vec_at_Some in E as [_ ?].
Qed.

(** X1: for a file whose faces make fewer than 2^32 vertex occurrences,
    each with a vertex index that is an index of the file's vertex list,
    the loader returns an object: the flattening loop reads nothing out of
    range and its 32-bit counter reaches the end. *)
Theorem loader_returns_in_range fs junk path content :
  fs path = Some content ->
  let R := read_file junk content in
  Z.of_nat (length (Loader.vertexIndices R)) < 2 ^ 32 ->
  Forall (in_bounds (Loader.temp_vertices R)) (Loader.vertexIndices R) ->
  exists o, Loader.construct fs junk path = Done o.
Proof.
  intros Hfs R Hlen Hall. unfold Loader.construct, Loader.loadOBJ.
  rewrite Hfs. fold (read_file junk content). fold R.
  destruct (2 ^ 32 <=? _) eqn:E; [apply Z.leb_le in E; lia|].
  apply LoaderFacts.process_indices_returns.
  eapply Forall_impl; [exact Hall|]. intros vi Hvi. exact Hvi.
Qed.

Lemma loader_returns_in_range_witness :
  exists o, Loader.construct (fs_single "t.obj" tri_plain) no_junk "t.obj" = Done o.
Proof.
  apply (loader_returns_in_range (fs_single "t.obj" tri_plain) no_junk
           "t.obj" tri_plain eq_refl eq_refl).
  vm_compute. repeat constructor; intros; discriminate.
Defined.

(** X2: the object the loader returns has the identity index buffer
    [0, 1, ..., n-1], its i-th vertex is the file vertex the i-th recorded
    vertex index points to, and its i-th normal is the one chosen for
    position i, where n is the number of recorded vertex indices. *)
Theorem flattening_is_positional fs junk path content o :
  fs path = Some content ->
  Loader.construct fs junk path = Done o ->
  let R := read_file junk content in
  let n := length (Loader.vertexIndices R) in
  indices o = Z.of_nat <$> seq 0 n /\
  Some <$> vertices o
    = vec_at (Loader.temp_vertices R) <$> Loader.vertexIndices R /\
  normals o = Loader.normal_at R <$> seq 0 n.
Proof. apply construct_flattens. Qed.

Lemma flattening_is_positional_witness :
  indices (tri_plain_obj "t.obj") = [0; 1; 2].
Proof.
  exact (proj1 (flattening_is_positional (fs_single "t.obj" tri_plain) no_junk
                  "t.obj" tri_plain (tri_plain_obj "t.obj") eq_refl eq_refl)).
Defined.



(** ** The loader: the reading loop *)

Lemma face_corner_normals st :
  let '(_, _, R) := st in
  let '(_, _, R') := Loader.face_corner st in
  (length (Loader.normalIndices R) <= length (Loader.normalIndices R') <=
   S (length (Loader.normalIndices R)))%nat.
Proof.
  destruct st as [[iss loc] R]. unfold Loader.face_corner.
  destruct (IStream.get_string iss (Loader.vertexData loc)) as [vd0 iss'].
  destruct (IStream.get_unsigned _ (Loader.vertexIndex loc)) as [vi vdss1].
  destruct (Loader.find_from " " _ 0) as [p|].
  - destruct (IStream.get_unsigned vdss1 0) as [ti vdss2].
    destruct (Loader.find_from " " _ (p + 1)) as [q|].
    + destruct (IStream.get_unsigned vdss2 (Loader.normalIndex loc)) as [ni s].
      cbn. rewrite length_app. cbn. lia.
    + cbn. lia.
  - cbn. lia.
Qed.

Lemma read_line_counts g line R :
  let R' := Loader.read_line g line R in
  length (Loader.temp_vertices R') =
    (length (Loader.temp_vertices R)
     + if String.eqb (first_token line) "v" then 1 else 0)%nat /\
  length (Loader.temp_normals R') =
    (length (Loader.temp_normals R)
     + if String.eqb (first_token line) "vn" then 1 else 0)%nat /\
  (length (Loader.normalIndices R') + length (Loader.vertexIndices R)
   <= length (Loader.normalIndices R) + length (Loader.vertexIndices R'))%nat.
Proof.
  unfold Loader.read_line, first_token.
  destruct (IStream.get_string (IStream.of_string line) "") as [prefix iss].
  cbn [fst].
  destruct (String.eqb prefix "v") eqn:Ev.
  { apply String.eqb_eq in Ev. subst prefix.
    destruct (Loader.get_vec3 iss (Loader.g_vertex g)). cbn.
    rewrite length_app. cbn. lia. }
  destruct (String.eqb prefix "vn") eqn:Evn.
  { apply String.eqb_eq in Evn. subst prefix.
    destruct (Loader.get_vec3 iss (Loader.g_normal g)). cbn.
    rewrite length_app. cbn. lia. }
  destruct (String.eqb prefix "f") eqn:Ef; [|cbn; lia].
  set (loc := Loader.FaceLocals _ _ _).
  pose proof (LoaderFacts.face_corner_shape (iss, loc, R)) as H1.
  pose proof (face_corner_normals (iss, loc, R)) as N1.
  cbv beta iota in H1, N1.
  destruct (Loader.face_corner (iss, loc, R)) as [[i1 l1] R1].
  pose proof (LoaderFacts.face_corner_shape (i1, l1, R1)) as H2.
  pose proof (face_corner_normals (i1, l1, R1)) as N2.
  cbv beta iota in H2, N2.
  destruct (Loader.face_corner (i1, l1, R1)) as [[i2 l2] R2].
  pose proof (LoaderFacts.face_corner_shape (i2, l2, R2)) as H3.
  pose proof (face_corner_normals (i2, l2, R2)) as N3.
  cbv beta iota in H3, N3.
  destruct (Loader.face_corner (i2, l2, R2)) as [[i3 l3] R3].
  destruct H1 as (A1 & B1 & ?), H2 as (A2 & B2 & ?), H3 as (A3 & B3 & ?).
  rewrite A3, A2, A1, B3, B2, B1. lia.
Qed.

Lemma read_lines_counts junk lines : forall n R,
  let R' := Loader.read_lines junk n lines R in
  length (Loader.temp_vertices R') =
    (length (Loader.temp_vertices R) + vertexCount lines)%nat /\
  length (Loader.temp_normals R') =
    (length (Loader.temp_normals R) + normalCount lines)%nat /\
  (length (Loader.normalIndices R') + length (Loader.vertexIndices R)
   <= length (Loader.normalIndices R) + length (Loader.vertexIndices R'))%nat.
Proof.
  induction lines as [|l ls IH]; intros n R; cbn [Loader.read_lines].
  - unfold vertexCount, normalCount. cbn. lia.
  - specialize (IH (S n) (Loader.read_line (junk n) l R)). cbv zeta in IH.
    destruct IH as (Hv & Hn & Hi).
    destruct (read_line_counts (junk n) l R) as (Hv1 & Hn1 & Hi1).
    unfold vertexCount, normalCount in *. cbn [List.filter].
    destruct (String.eqb (first_token l) "v"),
             (String.eqb (first_token l) "vn");
      cbn [length]; lia.
Qed.

(** X4: an object loaded from a file without any [vn] line has the
    default normal (0,1,0) at every position. *)
Theorem no_vn_default_normals fs junk path content o :
  fs path = Some content ->
  normalCount (file_lines content) = 0%nat ->
  Loader.construct fs junk path = Done o ->
  Forall (fun n => n = Loader.up) (normals o).
Proof.
  intros Hfs Hc H.
  destruct (construct_flattens _ _ _ _ _ Hfs H) as (_ & _ & Hn).
  assert (Hl : Loader.temp_normals (read_file junk content) = []).
  { apply length_zero_iff_nil. unfold read_file.
    destruct (read_lines_counts junk
                (Loader.getlines [] (list_ascii_of_string content)) 0
                Loader.raw_empty) as (_ & Hl & _).
    rewrite Hl. fold (file_lines content). rewrite Hc. reflexivity. }
  rewrite Hn. apply Forall_fmap, Forall_forall. intros i _. cbn.
  destruct (normal_at_cases (read_file junk content) i) as [E|E]; [exact E|].
  rewrite Hl in E. by apply not_elem_of_nil in E.
Qed.

Lemma no_vn_default_normals_witness :
  Forall (fun n => n = Loader.up) (normals (tri_plain_obj "t.obj")).
Proof.
  exact (no_vn_default_normals (fs_single "t.obj" tri_plain) no_junk "t.obj"
           tri_plain (tri_plain_obj "t.obj") eq_refl eq_refl eq_refl).
Defined.

Lemma list_ascii_of_string_app a b :
  list_ascii_of_string (a ++ b)
  = list_ascii_of_string a ++ list_ascii_of_string b.
Proof.
  induction a as [|c a IH]; [reflexivity|].
  change (list_ascii_of_string (String c a ++ b))
    with (c :: list_ascii_of_string (a ++ b)).
  rewrite IH. reflexivity.
Qed.

Lemma getlines_line l : forall cur rest,
  forallb (fun c => negb (Ascii.eqb c Loader.newline)) l = true ->
  Loader.getlines cur (l ++ Loader.newline :: rest) =
  string_of_list_ascii (rev cur ++ l) :: Loader.getlines [] rest.
Proof.
  induction l as [|c l IH]; intros cur rest Hn; cbn [Loader.getlines app].
  - rewrite Ascii.eqb_refl, app_nil_r. reflexivity.
  - cbn [forallb] in Hn. apply andb_true_iff in Hn as [Hc Hl].
    apply negb_true_iff in Hc. rewrite Hc.
    rewrite IH by assumption. cbn [rev]. rewrite <- app_assoc. reflexivity.
Qed.

(** Reading back a file written line by line gives the lines. *)
Lemma getlines_unlines ls :
  Forall no_newline ls -> file_lines (Loader.unlines ls) = ls.
Proof.
  unfold file_lines. induction 1 as [|l ls Hl _ IH]; [reflexivity|].
  cbn [Loader.unlines fold_right]. fold (Loader.unlines ls).
  rewrite list_ascii_of_string_app. cbn [list_ascii_of_string].
  rewrite getlines_line by exact Hl. cbn [rev app].
  rewrite string_of_list_ascii_of_string, IH. reflexivity.
Qed.

Lemma getlines_final_newline l : forall cur,
  last l <> Some Loader.newline ->
  (l = [] -> cur <> []) ->
  Loader.getlines cur (l ++ [Loader.newline]) = Loader.getlines cur l.
Proof.
  induction l as [|c l IH]; intros cur Hlast Hne; cbn [Loader.getlines app].
  - rewrite Ascii.eqb_refl. destruct cur; [by destruct Hne|reflexivity].
  - destruct (Ascii.eqb c Loader.newline) eqn:E.
    + f_equal. apply Ascii.eqb_eq in E. subst c.
      destruct l as [|d l]; [by destruct Hlast|].
      apply IH; [|discriminate]. by rewrite last_cons_cons in Hlast.
    + apply IH; [|discriminate].
      destruct l as [|d l]; [discriminate|]. by rewrite last_cons_cons in Hlast.
Qed.

Lemma read_lines_junk_ext ls : forall n m R j1 j2,
  (forall k, j1 (n + k)%nat = j2 (m + k)%nat) ->
  Loader.read_lines j1 n ls R = Loader.read_lines j2 m ls R.
Proof.
  induction ls as [|l ls IH]; intros n m R j1 j2 H; cbn; [reflexivity|].
  specialize (H 0%nat) as H0. rewrite !Nat.add_0_r in H0. rewrite H0.
  apply IH. intros k. specialize (H (S k)).
  by rewrite !Nat.add_succ_r in H.
Qed.

Lemma read_line_skipped g line R :
  skipped_line line = true -> Loader.read_line g line R = R.
Proof.
  unfold skipped_line, first_token, Loader.read_line.
  destruct (IStream.get_string (IStream.of_string line) "") as [prefix iss].
  cbn [fst]. intros H.
  apply andb_true_iff in H as [H Hf]. apply andb_true_iff in H as [Hv Hvn].
  apply negb_true_iff in Hv, Hvn, Hf. by rewrite Hv, Hvn, Hf.
Qed.

Lemma read_lines_skip pre : forall junk n line post R,
  skipped_line line = true ->
  Loader.read_lines junk n (pre ++ line :: post) R =
  Loader.read_lines (junk_skip junk (n + length pre)) n (pre ++ post) R.
Proof.
  induction pre as [|l pre IH]; intros junk n line post R Hs.
  - cbn [app Loader.read_lines]. rewrite read_line_skipped by exact Hs.
    apply read_lines_junk_ext. intros k. unfold junk_skip. cbn [length].
    destruct (Nat.ltb_spec (n + k) (n + 0)); [lia|]. f_equal.
  - cbn [app Loader.read_lines length]. rewrite (IH _ _ _ _ _ Hs).
    replace (S n + length pre)%nat with (n + S (length pre))%nat by lia.
    f_equal. f_equal. unfold junk_skip.
    destruct (Nat.ltb_spec n (n + S (length pre))); [reflexivity|lia].
Qed.

(** X5: a line whose first token is none of [v], [vn], [f] (a comment, a
    blank line, [vt], [o], [g], [usemtl], ...) can be removed from a file
    without changing what the loader returns; only the numbering of the
    later lines, by which the uninitialized locals are looked up, moves up
    by one. *)
Theorem skipped_lines_are_ignored fs fs' junk path pre line post :
  Forall no_newline (pre ++ line :: post) ->
  skipped_line line = true ->
  fs path = Some (Loader.unlines (pre ++ line :: post)) ->
  fs' path = Some (Loader.unlines (pre ++ post)) ->
  Loader.construct fs junk path =
  Loader.construct fs' (junk_skip junk (length pre)) path.
Proof.
  intros Hnl Hs Hfs Hfs'. unfold Loader.construct, Loader.loadOBJ.
  rewrite Hfs, Hfs'.
  pose proof (getlines_unlines _ Hnl) as E. unfold file_lines in E. rewrite E.
  assert (Hnl' : Forall no_newline (pre ++ post)).
  { apply Forall_app in Hnl as [H1 H2]. apply Forall_app. split; [exact H1|].
    by apply Forall_cons in H2 as [_ ?]. }
  pose proof (getlines_unlines _ Hnl') as E'. unfold file_lines in E'.
  rewrite E'.
  rewrite (read_lines_skip pre junk 0 line post _ Hs). reflexivity.
Qed.

Lemma skipped_lines_are_ignored_witness :
  Loader.construct
    (fs_single "t.obj"
       (Loader.unlines (commented_pre ++ "# corner"%string :: commented_post)))
    no_junk "t.obj" =
  Loader.construct
    (fs_single "t.obj" (Loader.unlines (commented_pre ++ commented_post)))
    (junk_skip no_junk (length commented_pre)) "t.obj".
Proof.
  apply (skipped_lines_are_ignored _ _ no_junk "t.obj" commented_pre
           "# corner" commented_post).
  - repeat constructor.
  - reflexivity.
  - reflexivity.
  - reflexivity.
Defined.

(** X6: a file without any [f] line (an empty file included) loads as an
    object with empty vertex, normal and index vectors, whatever else it
    contains. *)
Theorem no_faces_empty_mesh fs junk path content :
  fs path = Some content ->
  Loader.faceCount content = 0%nat ->
  Loader.construct fs junk path =
  Done (MkOBJ [] [] [] (vec3_splat 0) (vec3_splat 0) (vec3_splat 1) path).
Proof.
  intros Hfs Hf. unfold Loader.construct, Loader.loadOBJ. rewrite Hfs.
  set (R := Loader.read_lines _ _ _ _).
  assert (Hvis : Loader.vertexIndices R = []).
  { apply length_zero_iff_nil. subst R.
    rewrite LoaderFacts.read_lines_vertexIndices.
    unfold Loader.faceCount in Hf. rewrite Hf. reflexivity. }
  rewrite Hvis. reflexivity.
Qed.

Lemma no_faces_empty_mesh_witness :
  Loader.construct (fs_single "t.obj" vertices_only) no_junk "t.obj" =
  Done (MkOBJ [] [] [] (vec3_splat 0) (vec3_splat 0) (vec3_splat 1) "t.obj").
Proof.
  exact (no_faces_empty_mesh (fs_single "t.obj" vertices_only) no_junk "t.obj"
           vertices_only eq_refl eq_refl).
Defined.

(** X7: after the reading loop there is one vertex per [v] line and one
    normal per [vn] line, however malformed the line; three vertex indices
    per [f] line; and never more normal indices than vertex indices. *)
Theorem raw_counts junk content :
  let R := read_file junk content in
  length (Loader.temp_vertices R) = vertexCount (file_lines content) /\
  length (Loader.temp_normals R) = normalCount (file_lines content) /\
  length (Loader.vertexIndices R) = (3 * Loader.faceCount content)%nat /\
  (length (Loader.normalIndices R) <= length (Loader.vertexIndices R))%nat.
Proof.
  unfold read_file, file_lines.
  destruct (read_lines_counts junk
              (Loader.getlines [] (list_ascii_of_string content)) 0
              Loader.raw_empty) as (Hv & Hn & Hi).
  cbn in Hv, Hn, Hi. repeat split; try assumption; try lia.
  rewrite LoaderFacts.read_lines_vertexIndices. reflexivity.
Qed.

(** X8: a line feed after the last line of a file is optional: a
    non-empty file that does not end in one loads the same with one
    added. *)
Theorem final_newline_optional fs fs' junk path content :
  content <> EmptyString ->
  last (list_ascii_of_string content) <> Some Loader.newline ->
  fs path = Some content ->
  fs' path = Some (content ++ String Loader.newline EmptyString)%string ->
  Loader.construct fs' junk path = Loader.construct fs junk path.
Proof.
  intros Hne Hlast Hfs Hfs'. unfold Loader.construct, Loader.loadOBJ.
  rewrite Hfs, Hfs'. rewrite list_ascii_of_string_app.
  cbn [list_ascii_of_string].
  rewrite getlines_final_newline; [reflexivity|exact Hlast|].
  intros E. destruct content; [congruence|discriminate].
Qed.

Lemma final_newline_optional_witness :
  Loader.construct
    (fs_single "t.obj" ("v 1 2 3" ++ String Loader.newline EmptyString)%string)
    no_junk "t.obj" =
  Loader.construct (fs_single "t.obj" "v 1 2 3") no_junk "t.obj".
Proof.
  apply (final_newline_optional (fs_single "t.obj" "v 1 2 3") _ no_junk
           "t.obj" "v 1 2 3").
  - discriminate.
  - discriminate.
  - reflexivity.
  - reflexivity.
Defined.

(** ** Loading in [main], and what a run keeps *)

Lemma transform_selected_mesh held dt tm tm2 o :
  same_mesh o (transform_selected held dt tm tm2 o).
Proof. unfold transform_selected, same_mesh. destruct tm2, tm; done. Qed.

Lemma step_objects st e : objects (step st e) = objects st.
Proof.
  destruct e; cbn [step];
    [apply processInput_globals|apply key_callback_objects|reflexivity].
Qed.

Lemma step_mesh st e p o :
  heap st !! p = Some o ->
  exists o', heap (step st e) !! p = Some o' /\ same_mesh o o'.
Proof.
  intros Hp. destruct e as [held dt|k a|]; cbn [step].
  - rewrite processInput_heap.
    destruct (selected st) as [q|]; [|exists o; done].
    destruct (heap st !! q) as [oq|] eqn:Eq; [|exists o; done].
    destruct (decide (p = q)) as [->|Hne].
    + rewrite lookup_insert_eq. eexists. split; [reflexivity|].
      assert (oq = o) as -> by congruence. apply transform_selected_mesh.
    + rewrite lookup_insert_ne by done. exists o. done.
  - rewrite key_callback_heap. exists o. done.
  - exists o. done.
Qed.

Lemma step_None st e p : heap st !! p = None -> heap (step st e) !! p = None.
Proof.
  intros Hp. destruct e as [held dt|k a|]; cbn [step].
  - rewrite processInput_heap.
    destruct (selected st) as [q|]; [|done].
    destruct (heap st !! q) as [oq|] eqn:Eq; [|done].
    rewrite lookup_insert_ne; [done|]. congruence.
  - by rewrite key_callback_heap.
  - exact Hp.
Qed.

Lemma run_heap_None es : forall st q,
  heap st !! q = None -> heap (run st es) !! q = None.
Proof.
  induction es as [|e es IH]; intros st q H; [exact H|].
  change (run st (e :: es)) with (run (step st e) es).
  apply IH, step_None, H.
Qed.

Lemma step_allocated st e : allocated st -> allocated (step st e).
Proof.
  unfold allocated. intros H. rewrite step_objects.
  eapply Forall_impl; [exact H|]. intros p [o Hp]. cbn beta.
  destruct (step_mesh st e p o Hp) as (o' & H' & _). eauto.
Qed.

Lemma run_allocated es : forall st, allocated st -> allocated (run st es).
Proof.
  induction es as [|e es IH]; intros st H; [exact H|].
  change (run st (e :: es)) with (run (step st e) es).
  apply IH, step_allocated, H.
Qed.

Lemma step_selection st e :
  selection_valid st ->
  selection_valid (step st e) /\
  selectedObjectIndex (step st e) =
  (selectedObjectIndex st + (if tab_press e then 1 else 0))
    mod Z.of_nat (length (objects st)).
Proof.
  intros [Hs Hn]. destruct e as [held dt|k a|]; cbn [step tab_press].
  3: { unfold selection_valid. cbn. rewrite Z.add_0_r, Z.mod_small by lia.
       done. }
  - destruct (processInput_globals held dt st) as (Ho & Hi & _).
    unfold selection_valid. rewrite Ho, Hi, Z.add_0_r, Z.mod_small by lia.
    done.
  - assert (Hid : selection_valid st /\
                  selectedObjectIndex st =
                  (selectedObjectIndex st + 0)
                    mod Z.of_nat (length (objects st))).
    { split; [done|]. rewrite Z.add_0_r, Z.mod_small by lia. done. }
    destruct k; try (destruct a; exact Hid).
    destruct a; try exact Hid.
    destruct (selectNext_index st) as [Hi Ho]; [lia|lia|].
    fold (selectNext st). unfold selection_valid. rewrite Ho, Hi.
    split; [|reflexivity]. split; [|exact Hn].
    apply Z.mod_pos_bound. lia.
Qed.

Lemma run_selection_valid es : forall st,
  selection_valid st -> selection_valid (run st es).
Proof.
  induction es as [|e es IH]; intros st H; [exact H|].
  change (run st (e :: es)) with (run (step st e) es).
  apply IH, step_selection, H.
Qed.

Lemma selection_valid_selected st :
  selection_valid st -> allocated st ->
  exists p o, selected st = Some p /\ heap st !! p = Some o.
Proof.
  intros [Hs Hn] Ha. unfold selected.
  unfold INT_MAX in Hn.
  rewrite to_size_t_small by lia.
  destruct (Z.eqb_spec (Z.of_nat (length (objects st))) 0); [lia|].
  destruct (Z.leb_spec (Z.of_nat (length (objects st)))
              (selectedObjectIndex st)); [lia|].
  cbn [orb].
  destruct (lookup_lt_is_Some_2 (objects st)
              (Z.to_nat (selectedObjectIndex st))) as [p Hp]; [lia|].
  unfold allocated in Ha. rewrite Forall_forall in Ha.
  destruct (Ha p) as [o Ho]; [by eapply list_elem_of_lookup_2|].
  eauto.
Qed.

(** X10: after [main] has loaded its objects, whatever frames and key
    events follow, the registry is the same two pointers, each pointing to
    a live object, and the selection index is a valid index; so the guard
    of [processInput] always finds a selected object. *)
Theorem loaded_viewer_is_safe fs junk0 junk1 st es :
  main_load fs junk0 junk1 = Done (Some st) ->
  let st' := run st es in
  objects st' = [0%nat; 1%nat] /\
  allocated st' /\
  selection_valid st' /\
  exists p o, selected st' = Some p /\ heap st' !! p = Some o.
Proof.
  intros H st'. subst st'.
  destruct (main_load_ok _ _ _ _ H) as (_ & Ha & _).
  destruct (main_load_heap _ _ _ _ H) as (o0 & o1 & _ & _ & E). subst st.
  set (st := MkViewer _ _ _ _ _ _ _) in *.
  assert (Hv : selection_valid st).
  { unfold selection_valid, INT_MAX. cbn. lia. }
  pose proof (run_selection_valid es st Hv) as Hv'.
  pose proof (run_allocated es st Ha) as Ha'.
  refine (conj _ (conj Ha' (conj Hv' _))).
  - by rewrite run_objects.
  - by apply selection_valid_selected.
Qed.

Lemma loaded_viewer_is_safe_witness :
  objects (run demo_state demo_events) = [0%nat; 1%nat] /\
  allocated (run demo_state demo_events) /\
  selection_valid (run demo_state demo_events) /\
  exists p o, selected (run demo_state demo_events) = Some p /\
              heap (run demo_state demo_events) !! p = Some o.
Proof.
  exact (loaded_viewer_is_safe (fs_single asset tri_plain) no_junk no_junk
           demo_state demo_events demo_state_loaded).
Defined.

(** X11: no frame and no key event changes a mesh: every live object
    keeps its vertices, normals, indices and name through any run, and no
    object is created or destroyed. *)
Theorem meshes_never_change es : forall st p,
  match heap st !! p with
  | Some o => exists o', heap (run st es) !! p = Some o' /\ same_mesh o o'
  | None => heap (run st es) !! p = None
  end.
Proof.
  induction es as [|e es IH]; intros st p.
  - cbn. destruct (heap st !! p); [eexists; done|done].
  - change (run st (e :: es)) with (run (step st e) es).
    specialize (IH (step st e) p).
    destruct (heap st !! p) as [o|] eqn:Ep.
    + destruct (step_mesh st e p o Ep) as (o1 & H1 & M1). rewrite H1 in IH.
      destruct IH as (o' & H' & M'). exists o'. split; [exact H'|].
      unfold same_mesh in *. destruct M1 as (?&?&?&?), M' as (?&?&?&?).
      repeat split; congruence.
    + by rewrite (step_None st e p Ep) in IH.
Qed.

(** X12: through any interleaving of frames and key events, the selection
    index stays a valid index and advances by one, cyclically, at each
    press of Tab and only then (releases and repeats of Tab do not
    count). *)
Theorem selection_counts_tabs es : forall st,
  selection_valid st ->
  selection_valid (run st es) /\
  selectedObjectIndex (run st es) =
  (selectedObjectIndex st + Z.of_nat (count_events tab_press es))
    mod Z.of_nat (length (objects st)).
Proof.
  induction es as [|e es IH]; intros st Hv.
  - split; [exact Hv|]. destruct Hv as [Hs Hn]. cbn.
    rewrite Z.add_0_r, Z.mod_small by lia. reflexivity.
  - change (run st (e :: es)) with (run (step st e) es).
    destruct (step_selection st e Hv) as [Hv' Hi].
    destruct (IH _ Hv') as [Hv'' Hi'']. split; [exact Hv''|].
    rewrite Hi'', Hi, step_objects. destruct Hv as [Hs Hn].
    rewrite Z.add_mod_idemp_l by lia. f_equal.
    unfold count_events. cbn [List.filter].
    destruct (tab_press e); cbn [length]; lia.
Qed.

Lemma selection_counts_tabs_witness :
  selectedObjectIndex (run demo_state tab_events) = 1.
Proof.
  refine (proj2 (selection_counts_tabs tab_events demo_state _)).
  unfold selection_valid, INT_MAX. cbn. lia.
Defined.

Lemma step_mode st e : current_mode (step st e) = mode_after (current_mode st) e.
Proof.
  destruct e as [held dt|k a|]; cbn [step mode_after].
  - unfold current_mode.
    destruct (processInput_globals held dt st) as (_ & _ & -> & -> & _).
    reflexivity.
  - unfold key_callback. destruct a; try (destruct k; reflexivity).
    destruct k; try reflexivity. destruct (objects st); reflexivity.
  - reflexivity.
Qed.

(** X13: the interaction mode is the one of the last press of 1 (Rotate),
    2 (Translate) or 3 (Scale); frames, Tab, 4, every other key, and
    releases or repeats of any key leave it as it is. *)
Theorem mode_follows_last_key es : forall st,
  current_mode (run st es) = fold_left mode_after es (current_mode st).
Proof.
  induction es as [|e es IH]; intros st; [reflexivity|].
  change (run st (e :: es)) with (run (step st e) es).
  rewrite IH, step_mode. reflexivity.
Qed.

Lemma step_wireframe st e :
  wireframeMode (step st e) = xorb (wireframeMode st) (wireframe_press e).
Proof.
  destruct e as [held dt|k a|]; cbn [step wireframe_press].
  - destruct (processInput_globals held dt st) as (_ & _ & _ & _ & ->).
    by rewrite xorb_false_r.
  - unfold key_callback.
    destruct k, a; rewrite ?xorb_false_r; try reflexivity;
      try (destruct (objects st); reflexivity).
  - cbn. by rewrite xorb_false_r.
Qed.

(** X14: the wireframe flag after a run is the initial flag flipped once
    per press of 4: an even number of presses restores it, and nothing
    else touches it. *)
Theorem wireframe_parity es : forall st,
  wireframeMode (run st es)
  = xorb (wireframeMode st) (Nat.odd (count_events wireframe_press es)).
Proof.
  induction es as [|e es IH]; intros st.
  - cbn. by rewrite xorb_false_r.
  - change (run st (e :: es)) with (run (step st e) es).
    rewrite IH, step_wireframe. unfold count_events. cbn [List.filter].
    destruct (wireframe_press e); cbn [length].
    + rewrite Nat.odd_succ, <- Nat.negb_odd.
      destruct (wireframeMode st), (Nat.odd _); reflexivity.
    + by rewrite xorb_false_r.
Qed.

Lemma step_shouldClose st e :
  shouldClose (step st e) = shouldClose st || close_request e.
Proof.
  destruct e as [held dt|k a|]; cbn [step close_request].
  - unfold processInput. destruct (selected st) as [p|].
    + destruct (heap st !! p); cbn; destruct (held KEY_ESCAPE);
        by rewrite ?orb_true_r, ?orb_false_r.
    + cbn. destruct (held KEY_ESCAPE); by rewrite ?orb_true_r, ?orb_false_r.
  - rewrite orb_false_r. unfold key_callback. destruct a; try reflexivity.
    destruct k; try reflexivity. destruct (objects st); reflexivity.
  - cbn. by rewrite orb_true_r.
Qed.

(** X15: the window's close flag is set exactly by a frame that finds
    Escape held (also when no object can be selected) or by a close
    request of the window system, and nothing the program runs clears it;
    the key callback does not handle Escape. *)
Theorem close_flag_set_by_escape_or_request es : forall st,
  shouldClose (run st es) = shouldClose st || existsb close_request es.
Proof.
  induction es as [|e es IH]; intros st.
  - cbn. by rewrite orb_false_r.
  - change (run st (e :: es)) with (run (step st e) es).
    rewrite IH, step_shouldClose. cbn [existsb]. by rewrite orb_assoc.
Qed.

(** ** Key mapping of the transform update *)

(** X16: the arrow keys double W, S, A and D in Translate mode only: there
    an arrow key acts as its letter key, and in Rotate and Scale mode the
    arrow keys have no effect at all. *)
Theorem arrow_keys_only_translate held dt st :
  (current_mode st = TranslateMode ->
   processInput held dt st = processInput (fold_arrows held) dt st) /\
  (current_mode st <> TranslateMode ->
   processInput held dt st = processInput (drop_arrows held) dt st).
Proof.
  unfold current_mode, processInput, transform_selected.
  destruct (transformMode2 st) eqn:E2; [|destruct (transformMode st) eqn:E1];
    (split; [intros Hm; try discriminate|intros Hm; try congruence]);
    cbn [fold_arrows drop_arrows];
    destruct (selected st) as [p|]; try reflexivity;
    destruct (heap st !! p) as [o|]; try reflexivity.
  unfold translation_branch. cbn [fold_arrows].
  rewrite !orb_false_r. reflexivity.
Qed.

Lemma Zrem_small_abs a m : Z.abs a < m -> Z.rem a m = a.
Proof.
  intros H. destruct (Z.le_gt_cases 0 a).
  - apply Z.rem_small. lia.
  - rewrite <- (Z.opp_involutive a) at 1. rewrite Z.rem_opp_l'.
    rewrite Z.rem_small by lia. lia.
Qed.

(** The wrap leaves a value that is already within one turn alone. *)
Lemma fmodf_small x : in_wrap_range x -> (fmodf x 360 == x)%Q.
Proof.
  destruct x as [a b]. unfold in_wrap_range, fmodf, Qlt, Qeq. cbn.
  intros [H1 H2]. rewrite Zrem_small_abs by lia.
  rewrite Pos.mul_1_r. lia.
Qed.

Lemma vec3_eq_refl v : vec3_eq v v.
Proof. unfold vec3_eq. repeat split; reflexivity. Qed.

Lemma idle_transform held dt tm tm2 o :
  idle_keys held ->
  rot_in_range (rotation o) -> floored (scale o) ->
  same_transform o (transform_selected held dt tm tm2 o).
Proof.
  intros Hk Hr Hs.
  unfold idle_keys in Hk. rewrite !Forall_cons in Hk.
  destruct Hk as (W & S & A & D & Q & E & U & Dn & L & R & _).
  destruct Hr as (Rx & Ry & Rz), Hs as (Sx & Sy & Sz).
  unfold transform_selected, same_transform.
  destruct tm2; [|destruct tm].
  - unfold set_scale, scale_branch, scale_keys, glm_max3, vec3_eq.
    rewrite W, S, A, D, Q, E. cbn.
    rewrite !glm_max_above by assumption.
    repeat split; reflexivity.
  - unfold set_rotation, rotation_branch, rotation_keys, rotation_wrap, vec3_eq.
    rewrite W, S, A, D, Q, E. cbn.
    repeat split; try reflexivity; by apply fmodf_small.
  - unfold set_position, translation_branch, vec3_eq.
    rewrite W, S, A, D, Q, E, U, Dn, L, R. cbn.
    repeat split; reflexivity.
Qed.

(** X17: a frame in which none of W, S, A, D, Q, E and the arrow keys is
    held changes no object, in any mode and for any [deltaTime]: from a
    state whose rotations are within one turn and whose scales are at
    least 0.1, the wrap and the floor applied at the end of the update
    give back the same numbers. *)
Theorem idle_frame_keeps_transforms held dt st p o :
  idle_keys held ->
  rotation_ok st -> scale_ok st ->
  heap st !! p = Some o ->
  exists o',
    heap (processInput held dt st) !! p = Some o' /\
    same_mesh o o' /\ same_transform o o'.
Proof.
  intros Hk Hr Hs Hp. rewrite processInput_heap.
  assert (Hsame : same_mesh o o /\ same_transform o o).
  { split; [done|]. repeat split; apply vec3_eq_refl. }
  destruct (selected st) as [q|]; [|exists o; done].
  destruct (heap st !! q) as [oq|] eqn:Eq; [|exists o; done].
  destruct (decide (p = q)) as [->|Hne].
  - rewrite lookup_insert_eq. eexists. split; [reflexivity|].
    assert (oq = o) as -> by congruence.
    split; [apply transform_selected_mesh|].
    apply idle_transform; [exact Hk|apply (Hr q o Hp)|apply (Hs q o Hp)].
  - rewrite lookup_insert_ne by done. exists o. done.
Qed.

Lemma idle_frame_keeps_transforms_witness :
  let st := key_callback KEY_1 GLFW_PRESS demo_state in
  let o := demo_obj (Vec3 (-3 # 2) 0 0) in
  exists o',
    heap (processInput hold_none 7 st) !! 0%nat = Some o' /\
    same_mesh o o' /\ same_transform o o'.
Proof.
  cbv zeta.
  pose proof (main_load_ok _ _ _ _ demo_state_loaded) as (_ & _ & Hr & Hs & _).
  apply (idle_frame_keeps_transforms hold_none 7
           (key_callback KEY_1 GLFW_PRESS demo_state) 0%nat).
  - repeat constructor.
  - exact Hr.
  - exact Hs.
  - reflexivity.
Defined.

(** ** Frames, the loop of [main] and its teardown *)

Lemma run_app a : forall b st, run st (a ++ b) = run (run st a) b.
Proof. intros b st. unfold run. apply fold_left_app. Qed.

Lemma callbacks_run evs : forall st,
  fold_left (fun s ka => key_callback (fst ka) (snd ka) s) evs st
  = run st (map (fun ka => KeyEvent (fst ka) (snd ka)) evs).
Proof.
  induction evs as [|[k a] evs IH]; intros st; [reflexivity|].
  cbn. apply IH.
Qed.

(** A [glfwPollEvents] is a run of its events. *)
Lemma poll_events_run evs close st :
  poll_events evs close st
  = run st (map (fun ka => KeyEvent (fst ka) (snd ka)) evs
            ++ (if close then [WindowClose] else [])).
Proof.
  unfold poll_events. rewrite run_app, callbacks_run.
  destruct close; reflexivity.
Qed.

Lemma callbacks_shouldClose evs : forall st,
  shouldClose (fold_left (fun s ka => key_callback (fst ka) (snd ka) s) evs st)
  = shouldClose st.
Proof.
  induction evs as [|[k a] evs IH]; intros st; [reflexivity|].
  cbn. rewrite IH.
  pose proof (step_shouldClose st (KeyEvent k a)) as H. cbn in H.
  by rewrite orb_false_r in H.
Qed.

Lemma poll_events_shouldClose evs close st :
  shouldClose (poll_events evs close st) = shouldClose st || close.
Proof.
  unfold poll_events. destruct close; cbn.
  - by rewrite orb_true_r.
  - by rewrite callbacks_shouldClose, orb_false_r.
Qed.

Section FramesFacts.
Context {G : GLM} {F : FloatSub}.

Lemma draw_counts_app a b :
  draw_counts (a ++ b) = draw_counts a ++ draw_counts b.
Proof.
  induction a as [|c a IH]; [reflexivity|]. destruct c; cbn; by rewrite ?IH.
Qed.

Lemma selected_flags_app a b :
  selected_flags (a ++ b) = selected_flags a ++ selected_flags b.
Proof.
  induction a as [|c a IH]; [reflexivity|].
  destruct c; cbn; rewrite ?IH; try reflexivity.
  destruct (String.eqb _ _); by rewrite ?IH.
Qed.

Lemma draw_counts_draw o sel wf :
  draw_counts (draw o sel wf) = [length (indices o)].
Proof. unfold draw. by destruct (sel && wf). Qed.

Lemma selected_flags_draw o sel wf :
  selected_flags (draw o sel wf) = [if sel then 1 else 0].
Proof. unfold draw. by destruct (sel && wf). Qed.

Lemma draw_from_spec st ps : forall i,
  Forall (fun p => is_Some (heap st !! p)) ps ->
  draw_counts (draw_from st i ps) =
    (fun p => from_option (fun o => length (indices o)) 0%nat (heap st !! p))
      <$> ps /\
  selected_flags (draw_from st i ps) =
    (fun j => if Z.of_nat j =? to_size_t (selectedObjectIndex st)
              then 1 else 0)
      <$> seq i (length ps).
Proof.
  induction ps as [|p ps IH]; intros i Hall; [done|].
  inversion Hall as [|? ? [o Ho] Hall']; subst.
  cbn [draw_from length seq fmap list_fmap]. unfold draw_nth. rewrite Ho.
  rewrite draw_counts_app, selected_flags_app, draw_counts_draw,
    selected_flags_draw.
  destruct (IH (S i) Hall') as [-> ->]. done.
Qed.

Lemma one_hot n (s : nat) :
  (s < n)%nat ->
  (fun j => if Z.of_nat j =? Z.of_nat s then 1 else 0) <$> seq 0 n =
  <[s := 1]> (replicate n 0).
Proof.
  intros Hs. apply list_eq. intros j.
  rewrite list_lookup_fmap.
  destruct (decide (j < n)%nat) as [Hj|Hj].
  - rewrite lookup_seq_lt by lia. cbn.
    destruct (decide (j = s)) as [->|Hne].
    + rewrite Z.eqb_refl. rewrite list_lookup_insert_eq; [done|].
      rewrite length_replicate. lia.
    + rewrite list_lookup_insert_ne by done.
      rewrite lookup_replicate_2 by lia.
      destruct (Z.eqb_spec (Z.of_nat j) (Z.of_nat s)); [lia|done].
  - rewrite lookup_seq_ge by lia. cbn. symmetry.
    apply lookup_ge_None. rewrite length_insert, length_replicate. lia.
Qed.

(** X21: a frame issues exactly one draw call per object of the registry,
    in registry order, each with that object's number of indices; and it
    uploads [selected = 1] for the object at the selection index and
    [selected = 0] for every other object, so exactly one object is
    highlighted. *)
Theorem render_draws_each_object_once st :
  allocated st ->
  selection_valid st ->
  draw_counts (render st) =
    (fun p => from_option (fun o => length (indices o)) 0%nat (heap st !! p))
      <$> objects st /\
  selected_flags (render st) =
    <[Z.to_nat (selectedObjectIndex st) := 1]>
      (replicate (length (objects st)) 0).
Proof.
  intros Ha [Hs Hn]. destruct (draw_from_spec st (objects st) 0 Ha) as [Hc Hf].
  split; [exact Hc|]. unfold render. rewrite Hf.
  unfold INT_MAX in Hn. rewrite to_size_t_small by lia.
  rewrite <- (one_hot _ (Z.to_nat (selectedObjectIndex st))) by lia.
  apply list_fmap_ext. intros _ j _. cbn. by rewrite Z2Nat.id by lia.
Qed.

(** X22: the draw call of an object loaded from a file submits three
    indices per [f] line of the file, that is, whole triangles only. *)
Theorem draw_submits_three_per_face fs junk path content o sel wf :
  fs path = Some content ->
  Loader.construct fs junk path = Done o ->
  draw_counts (draw o sel wf) = [(3 * Loader.faceCount content)%nat].
Proof.
  intros Hfs H. rewrite draw_counts_draw.
  unfold Loader.construct, Loader.loadOBJ in H. rewrite Hfs in H.
  destruct (_ <=? _) in H; [discriminate|].
  apply LoaderFacts.process_indices_lengths in H as (_ & _ & Hi).
  rewrite Hi, LoaderFacts.read_lines_vertexIndices. reflexivity.
Qed.

(** X23: the loop of [main], entered with the close flag clear, runs its
    iterations up to and including the first one in which Escape is held
    or the window system asks to close the window, and none after it: that
    iteration is still updated, rendered and polled.  The state the loop
    ends in is the run of the events of those iterations. *)
Theorem loop_runs_until_close inputs : forall t0 st,
  shouldClose st = false ->
  length (fst (main_loop inputs t0 st))
    = length (until_close inputs) /\
  snd (main_loop inputs t0 st)
    = run st (loop_events (until_close inputs) t0).
Proof.
  induction inputs as [|f rest IH]; intros t0 st Hc; [done|].
  cbn [main_loop until_close]. rewrite Hc.
  set (dt := float_sub (fi_time f) t0).
  set (st1 := processInput (fi_held f) dt st).
  set (st2 := poll_events (fi_events f) (fi_close f) st1).
  assert (Hc2 : shouldClose st2 = fi_held f KEY_ESCAPE || fi_close f).
  { subst st2. rewrite poll_events_shouldClose. subst st1.
    pose proof (step_shouldClose st (Frame (fi_held f) dt)) as H.
    cbn in H. by rewrite H, Hc. }
  assert (Hst2 : st2 = run st (Frame (fi_held f) dt
                    :: map (fun ka => KeyEvent (fst ka) (snd ka)) (fi_events f)
                    ++ (if fi_close f then [WindowClose] else []))).
  { subst st2. by rewrite poll_events_run. }
  destruct (fi_held f KEY_ESCAPE || fi_close f) eqn:E.
  - assert (Hrest : main_loop rest (fi_time f) st2 = ([], st2)).
    { destruct rest; cbn; [reflexivity|]. by rewrite Hc2. }
    rewrite Hrest. cbn [fst snd length loop_events]. split; [reflexivity|].
    fold dt. by rewrite app_nil_r.
  - destruct (IH (fi_time f) st2 Hc2) as [Hl Hr].
    destruct (main_loop rest (fi_time f) st2) as [frames final].
    cbn [fst snd length] in *. split; [by rewrite Hl|].
    rewrite Hr, Hst2, <- run_app. cbn [loop_events]. fold dt.
    rewrite <- app_comm_cons, <- app_assoc. reflexivity.
Qed.

(** X24: every frame the loop of [main] renders draws the whole registry:
    it issues as many draw calls as the registry has objects. *)
Theorem every_frame_draws_the_registry inputs : forall t0 st,
  allocated st ->
  Forall (fun calls => length (draw_counts calls) = length (objects st))
         (fst (main_loop inputs t0 st)).
Proof.
  induction inputs as [|f rest IH]; intros t0 st Ha; cbn [main_loop];
    [constructor|].
  destruct (shouldClose st); [constructor|].
  set (st1 := processInput (fi_held f) (float_sub (fi_time f) t0) st).
  set (st2 := poll_events (fi_events f) (fi_close f) st1).
  assert (Ha1 : allocated st1) by apply (step_allocated st (Frame _ _) Ha).
  assert (Ho1 : objects st1 = objects st) by apply processInput_globals.
  assert (Ha2 : allocated st2).
  { subst st2. rewrite poll_events_run. by apply run_allocated. }
  assert (Ho2 : objects st2 = objects st).
  { subst st2. by rewrite poll_events_run, run_objects. }
  specialize (IH (fi_time f) st2 Ha2). rewrite Ho2 in IH.
  destruct (main_loop rest (fi_time f) st2) as [frames final].
  cbn [fst] in *.
  constructor; [|exact IH].
  destruct (draw_from_spec st1 (objects st1) 0 Ha1) as [Hc _].
  unfold render. rewrite Hc, length_fmap, Ho1. reflexivity.
Qed.

End FramesFacts.

Lemma render_draws_each_object_once_witness :
  let st := selectNext demo_state in
  draw_counts (G := word_GLM) (render st) = [3%nat; 3%nat] /\
  selected_flags (G := word_GLM) (render st) = [0; 1].
Proof.
  cbv zeta.
  pose proof (main_load_ok _ _ _ _ demo_state_loaded) as (_ & Ha & _).
  apply (render_draws_each_object_once (G := word_GLM) (selectNext demo_state)).
  - exact Ha.
  - vm_compute. repeat split; try reflexivity; intro; discriminate.
Defined.

Lemma draw_submits_three_per_face_witness :
  draw_counts (G := word_GLM) (draw (tri_plain_obj "t.obj") true true)
  = [(3 * Loader.faceCount tri_plain)%nat].
Proof.
  exact (draw_submits_three_per_face (G := word_GLM)
           (fs_single "t.obj" tri_plain) no_junk "t.obj" tri_plain
           (tri_plain_obj "t.obj") true true eq_refl eq_refl).
Defined.

Lemma loop_runs_until_close_witness :
  length (fst (main_loop (G := word_GLM) closed_inputs 0 demo_state))
    = 2%nat /\
  snd (main_loop (G := word_GLM) closed_inputs 0 demo_state)
  = run demo_state (loop_events (until_close closed_inputs) 0).
Proof.
  exact (loop_runs_until_close (G := word_GLM) closed_inputs 0 demo_state
           eq_refl).
Defined.

(** The loop stops after an iteration that sees Escape held as well. *)
Example loop_stops_on_escape :
  length (fst (main_loop (G := word_GLM) demo_inputs 0 demo_state))
  = 2%nat.
Proof. vm_compute. reflexivity. Qed.

Lemma every_frame_draws_the_registry_witness :
  Forall (fun calls => length (draw_counts (G := word_GLM) calls) = 2%nat)
         (fst (main_loop (G := word_GLM) demo_inputs 0 demo_state)).
Proof.
  pose proof (main_load_ok _ _ _ _ demo_state_loaded) as (_ & Ha & _).
  exact (every_frame_draws_the_registry (G := word_GLM) demo_inputs 0
           demo_state Ha).
Defined.

Lemma delete_all_frees ps : forall h : gmap nat OBJ,
  NoDup ps ->
  Forall (fun p => is_Some (h !! p)) ps ->
  exists h', delete_all ps h = Some h' /\
             forall q, h' !! q = if bool_decide (q ∈ ps) then None else h !! q.
Proof.
  induction ps as [|p ps IH]; intros h Hnd Hall.
  - exists h. split; [reflexivity|]. intros q.
    rewrite bool_decide_eq_false_2; [done|]. apply not_elem_of_nil.
  - apply NoDup_cons in Hnd as [Hp Hnd].
    apply Forall_cons in Hall as [[o Ho] Hall].
    cbn [delete_all]. rewrite Ho.
    destruct (IH (delete p h) Hnd) as (h' & Hd & Hl).
    { rewrite Forall_forall in Hall |- *. intros q Hq.
      rewrite lookup_delete_ne; [by apply Hall|]. intros ->. done. }
    exists h'. split; [exact Hd|]. intros q. rewrite Hl.
    destruct (decide (q = p)) as [->|Hne].
    + rewrite (bool_decide_eq_false_2 _ Hp).
      rewrite (bool_decide_eq_true_2 (p ∈ p :: ps)) by apply list_elem_of_here.
      apply lookup_delete_eq.
    + rewrite lookup_delete_ne by done.
      destruct (decide (q ∈ ps)) as [Hin|Hnin].
      * rewrite !bool_decide_eq_true_2; [done| |done].
        by apply list_elem_of_further.
      * rewrite !bool_decide_eq_false_2; [done| |done].
        rewrite not_elem_of_cons. done.
Qed.

Lemma delete_all_dangling ps : forall h : gmap nat OBJ,
  ~ (NoDup ps /\ Forall (fun p => is_Some (h !! p)) ps) ->
  delete_all ps h = None.
Proof.
  induction ps as [|p ps IH]; intros h Hn.
  - destruct Hn. split; constructor.
  - cbn [delete_all]. destruct (h !! p) as [o|] eqn:Ho; [|reflexivity].
    apply IH. intros [Hnd Hall]. apply Hn.
    assert (Hp : p ∉ ps).
    { intros Hin. rewrite Forall_forall in Hall.
      destruct (Hall p Hin) as [x Hx]. by rewrite lookup_delete_eq in Hx. }
    split; [by apply NoDup_cons|].
    apply Forall_cons. split; [eauto|].
    rewrite Forall_forall in Hall |- *. intros q Hq.
    specialize (Hall q Hq). rewrite lookup_delete_ne in Hall; [done|].
    intros ->. done.
Qed.

(** X26: the teardown deletes every object exactly once and leaves an
    empty heap and an empty registry when the registry's pointers are
    distinct and live; when a pointer occurs twice or is not live, the
    delete loop deletes something that is not live. *)
Theorem teardown_outcome st :
  heap_is_registry st ->
  (NoDup (objects st) /\ allocated st ->
   exists st', teardown st = Some st' /\ heap st' = ∅ /\ objects st' = []) /\
  (~ (NoDup (objects st) /\ allocated st) -> teardown st = None).
Proof.
  intros Hreg. unfold teardown. split.
  - intros [Hnd Ha].
    destruct (delete_all_frees (objects st) (heap st) Hnd Ha) as (h' & Hd & Hl).
    rewrite Hd. cbn. eexists. split; [reflexivity|]. split; [|reflexivity].
    cbn. apply map_eq. intros q. rewrite Hl, lookup_empty.
    destruct (decide (q ∈ objects st)) as [Hin|Hnin].
    + by rewrite bool_decide_eq_true_2.
    + rewrite bool_decide_eq_false_2 by done. by apply Hreg.
  - intros Hn. by rewrite (delete_all_dangling _ _ Hn).
Qed.

Lemma aliased_state_is_registry : heap_is_registry aliased_state.
Proof.
  intros q Hq. cbn in Hq |- *. rewrite !not_elem_of_cons in Hq.
  destruct Hq as (Q0 & _). rewrite lookup_insert_ne by done.
  apply lookup_empty.
Qed.

Lemma teardown_outcome_witness : teardown aliased_state = None.
Proof.
  apply (proj2 (teardown_outcome aliased_state aliased_state_is_registry)).
  intros [Hnd _]. cbn in Hnd. apply NoDup_cons in Hnd as [Hin _].
  apply Hin, list_elem_of_here.
Defined.

(** X27: after [main] has loaded its objects and run any frames and key
    events, its teardown deletes both objects, each once, and leaves
    nothing behind. *)
Theorem loaded_viewer_tears_down fs junk0 junk1 st es :
  main_load fs junk0 junk1 = Done (Some st) ->
  exists st',
    teardown (run st es) = Some st' /\ heap st' = ∅ /\ objects st' = [].
Proof.
  intros H.
  destruct (main_load_ok _ _ _ _ H) as (Hnd & Ha & _).
  assert (Hreg : heap_is_registry st).
  { destruct (main_load_heap _ _ _ _ H) as (o0 & o1 & _ & _ & E). subst st.
    intros q Hq. cbn in Hq |- *.
    rewrite !not_elem_of_cons in Hq. destruct Hq as (Q0 & Q1 & _).
    rewrite !lookup_insert_ne by done. apply lookup_empty. }
  unfold teardown.
  destruct (delete_all_frees (objects (run st es)) (heap (run st es)))
    as (h' & Hd & Hl).
  { by rewrite run_objects. }
  { by apply run_allocated. }
  rewrite Hd. cbn. eexists. split; [reflexivity|]. split; [|reflexivity].
  cbn. apply map_eq. intros q. rewrite Hl, lookup_empty, run_objects.
  destruct (decide (q ∈ objects st)) as [Hin|Hnin].
  - by rewrite bool_decide_eq_true_2.
  - rewrite bool_decide_eq_false_2 by done.
    exact (run_heap_None es st q (Hreg q Hnin)).
Qed.

Lemma loaded_viewer_tears_down_witness :
  exists st',
    teardown (run demo_state demo_events) = Some st' /\
    heap st' = ∅ /\ objects st' = [].
Proof.
  exact (loaded_viewer_tears_down (fs_single asset tri_plain) no_junk no_junk
           demo_state demo_events demo_state_loaded).
Defined.
